(** * questdb-typesafe-client: the SQL core, embedded and verified

    A shallow embedding of the literal formatter (sql/escape.ts,
    sql/format.ts), the expression AST and its combinators
    (types/sql.ts, query/expression.ts), the serializer
    (sql/serialize.ts), the Select, Insert and Update builders
    (query/select.ts, query/insert.ts, query/update.ts), the data
    definition builders (ddl/create.ts, ddl/alter.ts, ddl/drop.ts,
    ddl/describe.ts) and the result decoding (types/result.ts),
    followed by the properties the specification states about them
    and further properties of the code. *)

From Stdlib Require Import ZArith String Ascii List Bool Lia.
From Stdlib Require Import Decimal DecimalString DecimalPos.
From stdpp Require Import base option list gmap strings.

Set Warnings "-register-all".
Local Open Scope string_scope.
Local Open Scope Z_scope.

(* ===================================================================== *)
(** * Host values and completions *)
(* ===================================================================== *)

(** The two error classes QuestDBClient.exec rejects with
    (client/error.ts). *)
Inductive TransportError : Type :=
| QuestDBError (status : Z) (message : string)
| QuestDBConnectionError (message : string).

(** What a call can throw.  [JsError] is [new Error(message)] raised by
    the library itself; range, syntax and type errors are raised by
    built-ins of the host, which does not fix their messages. *)
Inductive Exn : Type :=
| JsError (message : string)
| JsRangeError
| JsSyntaxError
| JsTypeError
| Transport (e : TransportError).

(** The result of running a call: it returns normally or throws. *)
Inductive Completion (A : Type) : Type :=
| Normal (a : A)
| Throw (e : Exn).
Arguments Normal {A} a.
Arguments Throw {A} e.

Definition bindC {A B} (c : Completion A) (k : A -> Completion B) : Completion B :=
  match c with
  | Normal a => k a
  | Throw e => Throw e
  end.

#[global] Instance Completion_ret : MRet Completion := @Normal.
#[global] Instance Completion_bind : MBind Completion := fun _ _ k c => bindC c k.

(** Array.prototype.map with a callback that may throw: elements are
    visited left to right and the first throw aborts the loop. *)
Section MapC.
Context {A B : Type} (f : A -> Completion B).
Fixpoint mapC (l : list A) : Completion (list B) :=
  match l with
  | [] => Normal []
  | x :: xs => y ← f x; ys ← mapC xs; Normal (y :: ys)
  end.
End MapC.

(** A JavaScript number.  [NInt z] is an integral double that String()
    prints in plain decimal (magnitude below 1e21); [NReal text] is any
    other double, carried with the text String() gives it ("3.14",
    "1e+21", "NaN", "Infinity"). *)
Inductive JsNumber : Type :=
| NInt (z : Z)
| NReal (text : string).

(** A Date, carried with what its two printers return: toISOString()
    throws a RangeError on an invalid date ([date_iso = None]). *)
Record JsDate : Type := mkDate { date_iso : option string; date_text : string }.

(** The values ([unknown] in the source) that rows, literals and wire
    responses carry: primitives, dates, arrays and objects.  An object
    is given by its own enumerable properties in insertion order, each
    name once: [VObject] is a plain object, whose prototype is
    Object.prototype, and [VBare] an object without prototype, as
    Object.create(null) makes it.  [VBuiltin name] is the function
    Object.prototype holds under [name]: the value that reading a
    property such as [toString] or [constructor] gives on a plain
    object that does not own it. *)
Inductive JsValue : Type :=
| VUndefined
| VNull
| VBool (b : bool)
| VNumber (n : JsNumber)
| VBigInt (z : Z)
| VString (s : string)
| VDate (d : JsDate)
| VArray (items : list JsValue)
| VObject (props : list (string * JsValue))
| VBare (props : list (string * JsValue))
| VBuiltin (name : string).

(* ===================================================================== *)
(** * Text helpers *)
(* ===================================================================== *)

Definition dquote : ascii := "034"%char.
Definition squote : ascii := "039"%char.
Definition str1 (c : ascii) : string := String c EmptyString.

(** [s.replace(/c/g, by)] for a one-character pattern. *)
Fixpoint replace_all (c : ascii) (by_ : string) (s : string) : string :=
  match s with
  | EmptyString => EmptyString
  | String a rest =>
      if Ascii.eqb a c then by_ ++ replace_all c by_ rest
      else String a (replace_all c by_ rest)
  end.

(** [l.join(sep)] on an array of strings. *)
Definition join (sep : string) (l : list string) : string := String.concat sep l.

(** BigInt.prototype.toString(): the canonical decimal numeral. *)
Definition bigint_to_string (z : Z) : string :=
  NilZero.string_of_int (Z.to_int z).

Definition number_to_string (n : JsNumber) : string :=
  match n with
  | NInt z => bigint_to_string z
  | NReal text => text
  end.

(** Own property lookup on a plain object. *)
Fixpoint own_prop (key : string) (props : list (string * JsValue)) : option JsValue :=
  match props with
  | [] => None
  | (k, v) :: rest => if String.eqb k key then Some v else own_prop key rest
  end.

(** The methods of Object.prototype. *)
Definition builtin_names : list string :=
  ["constructor"; "__defineGetter__"; "__defineSetter__"; "hasOwnProperty";
   "__lookupGetter__"; "__lookupSetter__"; "isPrototypeOf"; "propertyIsEnumerable";
   "toString"; "valueOf"; "toLocaleString"].

(** What reading [key] on a plain object finds when the object does not
    own it: a method of Object.prototype, or, under [__proto__],
    Object.prototype itself -- an object that String() prints as any
    plain object and that has no [_rawSQL]. *)
Definition Object_prototype (key : string) : option JsValue :=
  if existsb (String.eqb key) builtin_names then Some (VBuiltin key)
  else if String.eqb key "__proto__" then Some (VObject [])
  else None.

(** Function.prototype.toString() on a built-in: the NativeFunction
    form.  The white space in it is the host's; it is written here as
    V8 prints it, and no statement below depends on it. *)
Definition builtin_text (name : string) : string :=
  "function " ++ (if String.eqb name "constructor" then "Object" else name)
  ++ "() { [native code] }".

(** What a method call hands back to the conversion to a primitive:
    the text of a primitive, or an object, which the conversion skips. *)
Inductive Returned : Type :=
| Primitive (text : string)
| AnObject.

Definition bool_text (b : bool) : string := if b then "true" else "false".

(** A method of Object.prototype other than toLocaleString, called
    without arguments on the plain object with own properties [props]:
    the missing argument is undefined, so the property tests are about
    the key ["undefined"], the getter lookups find no getter, and
    defining a getter that is not callable is a type error. *)
Definition call_builtin (name : string) (props : list (string * JsValue))
  : Completion Returned :=
  if String.eqb name "toString" then Normal (Primitive "[object Object]")
  else if (String.eqb name "valueOf" || String.eqb name "constructor")%bool
  then Normal AnObject
  else if (String.eqb name "hasOwnProperty" || String.eqb name "propertyIsEnumerable")%bool
  then Normal (Primitive (bool_text (bool_decide (is_Some (own_prop "undefined" props)))))
  else if String.eqb name "isPrototypeOf" then Normal (Primitive "false")
  else if (String.eqb name "__lookupGetter__" || String.eqb name "__lookupSetter__")%bool
  then Normal (Primitive "undefined")
  else Throw JsTypeError.

(** [object[key]] on an object with own properties [props]: the own
    property, or what the prototype chain gives when [inherits] says
    the object has Object.prototype on it. *)
Definition member (inherits : bool) (key : string) (props : list (string * JsValue))
  : JsValue :=
  match own_prop key props with
  | Some v => v
  | None => if inherits then default VUndefined (Object_prototype key) else VUndefined
  end.

(** [object.toString()], as toLocaleString calls it: a member that is
    not callable is a type error, and a toString that is toLocaleString
    itself never returns until the stack is exhausted. *)
Definition invoke_toString (inherits : bool) (props : list (string * JsValue))
  : Completion Returned :=
  match member inherits "toString" props with
  | VBuiltin name =>
      if String.eqb name "toLocaleString" then Throw JsRangeError
      else call_builtin name props
  | _ => Throw JsTypeError
  end.

(** One step of OrdinaryToPrimitive: the member [key] of the object,
    own or inherited, is called when it is callable and skipped when it
    is not. *)
Definition call_member (inherits : bool) (key : string) (props : list (string * JsValue))
  : Completion Returned :=
  match member inherits key props with
  | VBuiltin name =>
      if String.eqb name "toLocaleString" then invoke_toString inherits props
      else call_builtin name props
  | _ => Normal AnObject
  end.

(** String(object) on an object: toString, then valueOf, and a type
    error when neither gives a primitive -- as on an object without
    prototype that owns neither. *)
Definition object_String (inherits : bool) (props : list (string * JsValue))
  : Completion string :=
  first ← call_member inherits "toString" props;
  match first with
  | Primitive text => Normal text
  | AnObject =>
      second ← call_member inherits "valueOf" props;
      match second with
      | Primitive text => Normal text
      | AnObject => Throw JsTypeError
      end
  end.

(** String(value) -- also what a template literal does to [value].  An
    array prints as its join(","), where null and undefined items give
    the empty text and every other item is converted in turn. *)
Fixpoint js_String (v : JsValue) : Completion string :=
  match v with
  | VUndefined => Normal "undefined"
  | VNull => Normal "null"
  | VBool b => Normal (bool_text b)
  | VNumber n => Normal (number_to_string n)
  | VBigInt z => Normal (bigint_to_string z)
  | VString s => Normal s
  | VDate d => Normal (date_text d)
  | VArray items =>
      texts ← mapC (fun x => match x with
                             | VUndefined | VNull => Normal ""
                             | _ => js_String x
                             end) items;
      Normal (join "," texts)
  | VObject props => object_String true props
  | VBare props => object_String false props
  | VBuiltin name => Normal (builtin_text name)
  end.

(** How Array.prototype.join prints one element. *)
Definition join_item (x : JsValue) : Completion string :=
  match x with
  | VUndefined | VNull => Normal ""
  | _ => js_String x
  end.

(** Truthiness, as [value ? a : b] and [!value] test it. *)
Definition truthy (v : JsValue) : bool :=
  match v with
  | VUndefined | VNull => false
  | VBool b => b
  | VNumber (NInt z) => negb (z =? 0)
  | VNumber (NReal text) => negb (String.eqb text "NaN")
  | VBigInt z => negb (z =? 0)
  | VString s => negb (String.eqb s "")
  | VDate _ | VArray _ | VObject _ | VBare _ | VBuiltin _ => true
  end.

(* ===================================================================== *)
(** * sql/escape.ts *)
(* ===================================================================== *)

Definition in_range (lo hi : nat) (c : ascii) : bool :=
  (Nat.leb lo (nat_of_ascii c) && Nat.leb (nat_of_ascii c) hi)%bool.

(** [[a-zA-Z_]] *)
Definition ident_start (c : ascii) : bool :=
  (in_range 97 122 c || in_range 65 90 c || Ascii.eqb c "_")%bool.

(** [[a-zA-Z0-9_]] *)
Definition ident_part (c : ascii) : bool :=
  (in_range 97 122 c || in_range 65 90 c || in_range 48 57 c || Ascii.eqb c "_")%bool.

Fixpoint all_chars (p : ascii -> bool) (s : string) : bool :=
  match s with
  | EmptyString => true
  | String a rest => (p a && all_chars p rest)%bool
  end.

(** [/^[a-zA-Z_][a-zA-Z0-9_]*$/.test(name)] *)
Definition safe_identifier (name : string) : bool :=
  match name with
  | EmptyString => false
  | String a rest => (ident_start a && all_chars ident_part rest)%bool
  end.

Definition escapeIdentifier (name : string) : string :=
  if safe_identifier name then name
  else str1 dquote ++ replace_all dquote (str1 dquote ++ str1 dquote) name ++ str1 dquote.

Definition escapeString (value : string) : string :=
  replace_all squote (str1 squote ++ str1 squote) value.

(* ===================================================================== *)
(** * types/column.ts and sql/format.ts *)
(* ===================================================================== *)

Inductive QuestDBType : Type :=
| boolean | byte | short | char | int | float | long | double | decimal
| date | timestamp | timestamp_ns | symbol | varchar | string_ | uuid | ipv4
| binary | long256 | geohash | array.

(** ['${escapeString(String(value))}'] *)
Definition quoted (v : JsValue) : Completion string :=
  text ← js_String v;
  Normal (str1 squote ++ escapeString text ++ str1 squote).

Definition typeof (v : JsValue) : string :=
  match v with
  | VUndefined => "undefined"
  | VNull | VDate _ | VArray _ | VObject _ | VBare _ => "object"
  | VBool _ => "boolean"
  | VNumber _ => "number"
  | VBigInt _ => "bigint"
  | VString _ => "string"
  | VBuiltin _ => "function"
  end.

Definition formatValue (value : JsValue) (type : QuestDBType) : Completion string :=
  match value with
  | VNull | VUndefined => Normal "NULL"
  | _ =>
    match type with
    | boolean => Normal (if truthy value then "true" else "false")
    | byte | short | int | float | double => js_String value
    | long => js_String value
    | decimal => quoted value
    | char => quoted value
    | varchar | string_ | symbol | uuid | ipv4 | long256 => quoted value
    | timestamp | date =>
        match value with
        | VDate d =>
            match date_iso d with
            | Some iso => Normal (str1 squote ++ iso ++ str1 squote)
            | None => Throw JsRangeError
            end
        | VNumber _ | VBigInt _ => js_String value
        | _ => quoted value
        end
    | timestamp_ns => js_String value
    | geohash => text ← js_String value; Normal ("##" ++ text)
    | binary => Throw (JsError "Binary values cannot be inserted via SQL; use the /imp endpoint")
    | array =>
        match value with
        | VArray _ => text ← js_String value; Normal ("{" ++ text ++ "}")
        | _ => Throw (JsError ("Expected array value, got " ++ typeof value))
        end
    end
  end.

(* ===================================================================== *)
(** * types/sql.ts: the statement and expression trees *)
(* ===================================================================== *)

Inductive Direction : Type := ASC | DESC.
Inductive Align : Type := CALENDAR | FIRST_OBSERVATION.
Inductive JoinType : Type := INNER | LEFT | CROSS | ASOF | LT | SPLICE.

Inductive FillStrategy : Type :=
| FillNONE | FillNULL | FillPREV | FillLINEAR
| FillConstant (constant : JsValue).

Record SampleByClause : Type := mkSampleBy {
  sb_interval : string;
  sb_fill : list FillStrategy;
  sb_align : option Align
}.

Record LatestOnClause : Type := mkLatestOn {
  lo_timestamp : string;
  lo_partitionBy : list string
}.

Record LimitClause : Type := mkLimit {
  lim_count : JsNumber;
  lim_offset : option JsNumber
}.

Inductive SqlExpr : Type :=
| Column (table : option string) (name : string)
| Literal (value : JsValue) (type : QuestDBType)
| Binary (op : string) (left right : SqlExpr)
| Unary (op : string) (operand : SqlExpr)
| Function (name : string) (args : list SqlExpr)
| Aggregate (name : string) (args : list SqlExpr) (alias : option string)
| Subquery (sql : SelectNode)
| TimestampIn (column interval : string)
| InList (column : string) (values : list SqlExpr)
| Between (column : string) (low high : SqlExpr)
| IsNull (column : string) (negated : bool)
| Raw (sql : string)
with SelectNode : Type :=
| mkSelect (distinct : bool)
           (columns : list SelectColumn)
           (from : FromClause)
           (joins : list JoinClause)
           (where_ : option SqlExpr)
           (groupBy : list SqlExpr)
           (orderBy : list OrderItem)
           (limit : option LimitClause)
           (sampleBy : option SampleByClause)
           (latestOn : option LatestOnClause)
with SelectColumn : Type :=
| mkColumn (expr : SqlExpr) (alias : option string)
with OrderItem : Type :=
| mkOrder (expr : SqlExpr) (direction : Direction)
with FromClause : Type :=
| FromTable (name : string) (alias : option string)
| FromSubquery (select : SelectNode) (alias : string)
with JoinClause : Type :=
| mkJoin (type : JoinType) (table : FromClause) (on : option SqlExpr)
         (tolerance : option string).

Definition n_distinct (n : SelectNode) := let 'mkSelect d _ _ _ _ _ _ _ _ _ := n in d.
Definition n_columns (n : SelectNode) := let 'mkSelect _ c _ _ _ _ _ _ _ _ := n in c.
Definition n_from (n : SelectNode) := let 'mkSelect _ _ f _ _ _ _ _ _ _ := n in f.
Definition n_joins (n : SelectNode) := let 'mkSelect _ _ _ j _ _ _ _ _ _ := n in j.
Definition n_where (n : SelectNode) := let 'mkSelect _ _ _ _ w _ _ _ _ _ := n in w.
Definition n_groupBy (n : SelectNode) := let 'mkSelect _ _ _ _ _ g _ _ _ _ := n in g.
Definition n_orderBy (n : SelectNode) := let 'mkSelect _ _ _ _ _ _ o _ _ _ := n in o.
Definition n_limit (n : SelectNode) := let 'mkSelect _ _ _ _ _ _ _ l _ _ := n in l.
Definition n_sampleBy (n : SelectNode) := let 'mkSelect _ _ _ _ _ _ _ _ s _ := n in s.
Definition n_latestOn (n : SelectNode) := let 'mkSelect _ _ _ _ _ _ _ _ _ l := n in l.

Record InsertNode : Type := mkInsert {
  ins_table : string;
  ins_columns : list string;
  ins_values : list (list JsValue);
  ins_columnTypes : list QuestDBType
}.

(* ===================================================================== *)
(** * sql/serialize.ts *)
(* ===================================================================== *)

Definition nl : string := str1 "010"%char.

(** An optional string tested for truthiness ([x ? a : b]): absent and
    empty both count as missing. *)
Definition present (o : option string) : option string :=
  match o with
  | Some s => if String.eqb s "" then None else Some s
  | None => None
  end.

Definition direction_text (d : Direction) : string :=
  match d with ASC => "ASC" | DESC => "DESC" end.

Definition align_text (a : Align) : string :=
  match a with CALENDAR => "CALENDAR" | FIRST_OBSERVATION => "FIRST OBSERVATION" end.

Definition join_type_text (t : JoinType) : string :=
  match t with
  | INNER => "INNER" | LEFT => "LEFT" | CROSS => "CROSS"
  | ASOF => "ASOF" | LT => "LT" | SPLICE => "SPLICE"
  end.

Definition fill_text (f : FillStrategy) : Completion string :=
  match f with
  | FillNONE => Normal "NONE"
  | FillNULL => Normal "NULL"
  | FillPREV => Normal "PREV"
  | FillLINEAR => Normal "LINEAR"
  | FillConstant c => js_String c
  end.

(** The tail of serializeSelect that no longer recurses into
    expressions: SAMPLE BY with its FILL and ALIGN TO lines. *)
Definition sample_parts (sb : option SampleByClause) : Completion (list string) :=
  match sb with
  | None => Normal []
  | Some s =>
      fill ← match sb_fill s with
             | [] => Normal []
             | fills => texts ← mapC fill_text fills;
                        Normal ["FILL(" ++ join ", " texts ++ ")"]
             end;
      let sample := ["SAMPLE BY " ++ sb_interval s] in
      let align := match sb_align s with
                   | Some a => ["ALIGN TO " ++ align_text a]
                   | None => []
                   end in
      Normal (sample ++ fill ++ align)%list
  end.

Definition limit_parts (l : option LimitClause) : list string :=
  match l with
  | None => []
  | Some lc =>
      ["LIMIT " ++ number_to_string (lim_count lc)
       ++ match lim_offset lc with
          | Some off => ", " ++ number_to_string off
          | None => ""
          end]
  end.

Definition latest_parts (l : option LatestOnClause) : list string :=
  match l with
  | None => []
  | Some lc =>
      ["LATEST ON " ++ escapeIdentifier (lo_timestamp lc) ++ " PARTITION BY "
       ++ join ", " (List.map escapeIdentifier (lo_partitionBy lc))]
  end.

Fixpoint serializeExpr (expr : SqlExpr) : Completion string :=
  match expr with
  | Column table name =>
      match present table with
      | Some t => Normal (escapeIdentifier t ++ "." ++ escapeIdentifier name)
      | None => Normal (escapeIdentifier name)
      end
  | Literal value type => formatValue value type
  | Binary op lhs rhs =>
      l ← serializeExpr lhs;
      r ← serializeExpr rhs;
      Normal ("(" ++ l ++ " " ++ op ++ " " ++ r ++ ")")
  | Unary op operand =>
      o ← serializeExpr operand;
      Normal ("(" ++ op ++ " " ++ o ++ ")")
  | Function name args =>
      a ← mapC serializeExpr args;
      Normal (name ++ "(" ++ join ", " a ++ ")")
  | Aggregate name args alias =>
      a ← mapC serializeExpr args;
      let fn := name ++ "(" ++ join ", " a ++ ")" in
      match present alias with
      | Some al => Normal (fn ++ " AS " ++ escapeIdentifier al)
      | None => Normal fn
      end
  | Subquery sql =>
      s ← serializeSelect sql;
      Normal ("(" ++ s ++ ")")
  | TimestampIn column interval =>
      Normal (escapeIdentifier column ++ " IN " ++ str1 squote
              ++ escapeString interval ++ str1 squote)
  | InList column values =>
      vs ← mapC serializeExpr values;
      Normal (escapeIdentifier column ++ " IN (" ++ join ", " vs ++ ")")
  | Between column low high =>
      lo ← serializeExpr low;
      hi ← serializeExpr high;
      Normal (escapeIdentifier column ++ " BETWEEN " ++ lo ++ " AND " ++ hi)
  | IsNull column negated =>
      if negated then Normal (escapeIdentifier column ++ " IS NOT NULL")
      else Normal (escapeIdentifier column ++ " IS NULL")
  | Raw sql => Normal sql
  end
with serializeSelect (node : SelectNode) : Completion string :=
  match node with
  | mkSelect distinct columns from joins where_ groupBy orderBy limit sampleBy latestOn =>
      let selectKw := if distinct then "SELECT DISTINCT" else "SELECT" in
      sel ← match columns with
            | [] => Normal (selectKw ++ " *")
            | _ => cols ← mapC serializeColumn columns;
                   Normal (selectKw ++ " " ++ join ", " cols)
            end;
      fr ← serializeFrom from;
      js ← mapC serializeJoin joins;
      wh ← match where_ with
           | Some w => e ← serializeExpr w; Normal ["WHERE " ++ e]
           | None => Normal []
           end;
      sb ← sample_parts sampleBy;
      gb ← match groupBy with
           | [] => Normal []
           | _ => g ← mapC serializeExpr groupBy; Normal ["GROUP BY " ++ join ", " g]
           end;
      ob ← match orderBy with
           | [] => Normal []
           | _ => o ← mapC serializeOrder orderBy; Normal ["ORDER BY " ++ join ", " o]
           end;
      Normal (join nl ([sel] ++ ["FROM " ++ fr] ++ js ++ latest_parts latestOn ++ wh
                       ++ sb ++ gb ++ ob ++ limit_parts limit))
  end
with serializeColumn (c : SelectColumn) : Completion string :=
  match c with
  | mkColumn expr alias =>
      e ← serializeExpr expr;
      match present alias with
      | Some al => Normal (e ++ " AS " ++ escapeIdentifier al)
      | None => Normal e
      end
  end
with serializeOrder (o : OrderItem) : Completion string :=
  match o with
  | mkOrder expr direction =>
      e ← serializeExpr expr;
      Normal (e ++ " " ++ direction_text direction)
  end
with serializeFrom (from : FromClause) : Completion string :=
  match from with
  | FromTable name alias =>
      let n := escapeIdentifier name in
      match present alias with
      | Some al => Normal (n ++ " " ++ escapeIdentifier al)
      | None => Normal n
      end
  | FromSubquery select alias =>
      s ← serializeSelect select;
      Normal ("(" ++ s ++ ") " ++ escapeIdentifier alias)
  end
with serializeJoin (j : JoinClause) : Completion string :=
  match j with
  | mkJoin type table on tolerance =>
      t ← serializeFrom table;
      let joinStr := join_type_text type ++ " JOIN " ++ t in
      match on with
      | Some e => o ← serializeExpr e; Normal (joinStr ++ " ON " ++ o)
      | None => Normal joinStr
      end
  end.

(* ===================================================================== *)
(** * types/column.ts, schema/define.ts: table definitions *)
(* ===================================================================== *)

Record ColumnMeta : Type := mkMeta {
  designated : option bool;
  symbolCapacity : option JsNumber;
  symbolCache : option bool;
  symbolIndex : option bool;
  symbolIndexCapacity : option JsNumber;
  geohashBits : option JsNumber;
  arrayType : option QuestDBType
}.

Record QColumn : Type := mkQColumn {
  qdbType : QuestDBType;
  meta : ColumnMeta
}.

(** [columns] lists the entries of the definition's column object in
    the order Object.entries walks them. *)
Record TableDef : Type := mkTableDef {
  name : string;
  columns : list (string * QColumn);
  partitionBy : string;
  wal : bool;
  dedupKeys : list string;
  ttl : option string;
  maxUncommittedRows : option JsNumber;
  o3MaxLag : option string
}.

Abbreviation def_columns := columns (only parsing).

(** [col.meta.designated] used as a condition. *)
Definition is_designated (col : QColumn) : bool :=
  match designated (meta col) with
  | Some b => b
  | None => false
  end.

(** ddl/create.ts *)
Fixpoint findDesignatedColumn (cols : list (string * QColumn)) : option string :=
  match cols with
  | [] => None
  | (name, col) :: rest =>
      if is_designated col then Some name else findDesignatedColumn rest
  end.

(* ===================================================================== *)
(** * query/expression.ts *)
(* ===================================================================== *)

Definition inferQdbType (value : JsValue) : QuestDBType :=
  match value with
  | VBool _ => boolean
  | VBigInt _ => long
  | VNumber _ => double
  | VDate _ => timestamp
  | _ => varchar
  end.

Module ColumnExpr.
Record t : Type := mk {
  eq : JsValue -> SqlExpr;
  neq : JsValue -> SqlExpr;
  gt : JsValue -> SqlExpr;
  gte : JsValue -> SqlExpr;
  lt : JsValue -> SqlExpr;
  lte : JsValue -> SqlExpr;
  in_ : list JsValue -> SqlExpr;
  isNull : SqlExpr;
  isNotNull : SqlExpr;
  between : JsValue -> JsValue -> SqlExpr;
  like : string -> SqlExpr;
  matches : string -> SqlExpr;
  ref : SqlExpr
}.
End ColumnExpr.

Definition literal_of (value : JsValue) : SqlExpr := Literal value (inferQdbType value).

Definition buildColumnExpr (name : string) (table : option string) : ColumnExpr.t :=
  let colRef := Column table name in
  {| ColumnExpr.eq := fun value => Binary "=" colRef (literal_of value);
     ColumnExpr.neq := fun value => Binary "!=" colRef (literal_of value);
     ColumnExpr.gt := fun value => Binary ">" colRef (literal_of value);
     ColumnExpr.gte := fun value => Binary ">=" colRef (literal_of value);
     ColumnExpr.lt := fun value => Binary "<" colRef (literal_of value);
     ColumnExpr.lte := fun value => Binary "<=" colRef (literal_of value);
     ColumnExpr.in_ := fun values => InList name (List.map literal_of values);
     ColumnExpr.isNull := IsNull name false;
     ColumnExpr.isNotNull := IsNull name true;
     ColumnExpr.between := fun low high => Between name (literal_of low) (literal_of high);
     ColumnExpr.like := fun pattern => Binary "LIKE" colRef (Literal (VString pattern) varchar);
     ColumnExpr.matches := fun pattern => Binary "~" colRef (Literal (VString pattern) varchar);
     ColumnExpr.ref := colRef |}.

(** The facade handed to WHERE/ON callbacks: one entry per column. *)
Definition ColumnExprs : Type := list (string * ColumnExpr.t).

Definition buildColumnExprs (def : TableDef) (tableAlias : option string) : ColumnExprs :=
  List.map (fun entry => (fst entry, buildColumnExpr (fst entry) tableAlias)) (columns def).

Module Combinators.
(** [exprs.reduce(f)] on an array of two or more elements: the first
    element seeds the accumulator. *)
Definition reduce (f : SqlExpr -> SqlExpr -> SqlExpr) (first : SqlExpr)
           (rest : list SqlExpr) : SqlExpr :=
  fold_left f rest first.

Definition and (exprs : list SqlExpr) : Completion SqlExpr :=
  match exprs with
  | [] => Throw (JsError "and() requires at least one expression")
  | [e] => Normal e
  | e :: rest => Normal (reduce (fun acc expr => Binary "AND" acc expr) e rest)
  end.

Definition or (exprs : list SqlExpr) : Completion SqlExpr :=
  match exprs with
  | [] => Throw (JsError "or() requires at least one expression")
  | [e] => Normal e
  | e :: rest => Normal (reduce (fun acc expr => Binary "OR" acc expr) e rest)
  end.

Definition not (expr : SqlExpr) : SqlExpr := Unary "NOT" expr.

Definition raw (sql : string) : SqlExpr := Raw sql.
End Combinators.

(* ===================================================================== *)
(** * types/result.ts: decoding wire values *)
(* ===================================================================== *)

(** The white space BigInt(string) trims, as the bytes of its UTF-8
    encoding (strings here are byte strings): tab to carriage return,
    space, U+00A0, U+1680, U+2000 to U+200A, U+2028, U+2029, U+202F,
    U+205F, U+3000 and U+FEFF. *)
Definition ws_codes : list (list nat) :=
  [[9]; [10]; [11]; [12]; [13]; [32]; [194; 160]; [225; 154; 128];
   [226; 128; 128]; [226; 128; 129]; [226; 128; 130]; [226; 128; 131];
   [226; 128; 132]; [226; 128; 133]; [226; 128; 134]; [226; 128; 135];
   [226; 128; 136]; [226; 128; 137]; [226; 128; 138]; [226; 128; 168];
   [226; 128; 169]; [226; 128; 175]; [226; 129; 159]; [227; 128; 128];
   [239; 187; 191]]%nat.

Fixpoint starts_with (bytes : list nat) (s : string) : bool :=
  match bytes, s with
  | [], _ => true
  | b :: more, String c rest => (Nat.eqb (nat_of_ascii c) b && starts_with more rest)%bool
  | _ :: _, EmptyString => false
  end.

(** The number of bytes of the white-space character [s] starts with;
    0 when it starts with none. *)
Definition ws_width (s : string) : nat :=
  match List.find (fun bytes => starts_with bytes s) ws_codes with
  | Some bytes => length bytes
  | None => 0
  end.

Fixpoint drop_bytes (n : nat) (s : string) : string :=
  match n, s with
  | S k, String _ rest => drop_bytes k rest
  | _, _ => s
  end.

(** Every step drops at least one byte, so the length of the text is
    fuel enough. *)
Fixpoint trim_start_fuel (fuel : nat) (s : string) : string :=
  match fuel with
  | O => s
  | S less =>
      match ws_width s with
      | O => s
      | width => trim_start_fuel less (drop_bytes width s)
      end
  end.

Definition trim_start (s : string) : string := trim_start_fuel (String.length s) s.

(** A text that is white space to its end is trimmed to nothing. *)
Fixpoint trim_end (s : string) : string :=
  match s with
  | EmptyString => EmptyString
  | String c rest =>
      match trim_start s with
      | EmptyString => EmptyString
      | _ => String c (trim_end rest)
      end
  end.

Definition trim (s : string) : string := trim_end (trim_start s).

Definition digit_value (radix : N) (c : ascii) : option N :=
  let n := N_of_ascii c in
  let v := if in_range 48 57 c then Some (n - 48)%N
           else if in_range 97 122 c then Some (n - 87)%N
           else if in_range 65 90 c then Some (n - 55)%N
           else None in
  match v with
  | Some d => if (d <? radix)%N then Some d else None
  | None => None
  end.

Fixpoint parse_digits (radix : N) (s : string) (acc : N) : option N :=
  match s with
  | EmptyString => Some acc
  | String c rest =>
      match digit_value radix c with
      | Some d => parse_digits radix rest (radix * acc + d)%N
      | None => None
      end
  end.

(** One or more digits of the radix. *)
Definition parse_numeral (radix : N) (s : string) : option Z :=
  match s with
  | EmptyString => None
  | _ => option_map Z.of_N (parse_digits radix s 0%N)
  end.

(** StringToBigInt: trimmed text; empty is zero; 0x/0o/0b numerals take
    no sign; a decimal numeral may carry one. *)
Definition StringToBigInt (s : string) : option Z :=
  match trim s with
  | EmptyString => Some 0
  | String "0" (String ("x" | "X") digits) => parse_numeral 16 digits
  | String "0" (String ("o" | "O") digits) => parse_numeral 8 digits
  | String "0" (String ("b" | "B") digits) => parse_numeral 2 digits
  | String "-" digits => option_map Z.opp (parse_numeral 10 digits)
  | String "+" digits => parse_numeral 10 digits
  | digits => parse_numeral 10 digits
  end.

(** BigInt(value) for the two wire representations coerceValue passes. *)
Definition BigInt_of_string (s : string) : Completion JsValue :=
  match StringToBigInt s with
  | Some z => Normal (VBigInt z)
  | None => Throw JsSyntaxError
  end.

(** Splits [s] at the first [c]. *)
Fixpoint split_at (c : ascii) (s : string) : string * option string :=
  match s with
  | EmptyString => (EmptyString, None)
  | String a rest =>
      if Ascii.eqb a c then (EmptyString, Some rest)
      else let '(before, after) := split_at c rest in (String a before, after)
  end.

(** The double nearest to a non-negative integer: 53 significant bits,
    ties to even. *)
Definition nearest_double (v : Z) : Z :=
  let p := Z.log2 v - 52 in
  if p <=? 0 then v
  else
    let q := Z.shiftr v p in
    let r := v - Z.shiftl q p in
    let half := Z.shiftl 1 (p - 1) in
    let m := if ((half <? r) || ((r =? half) && Z.odd q))%bool then q + 1 else q in
    Z.shiftl m p.

(** [+21], [-7] *)
Definition signed_numeral (s : string) : option Z :=
  match s with
  | String "+" digits => parse_numeral 10 digits
  | String "-" digits => option_map Z.opp (parse_numeral 10 digits)
  | _ => None
  end.

(** The value of a number that is an integer, from the text String()
    gives it: digits, an optional fraction and an optional exponent
    ("5", "1e+21", "-1.2345e+25"); the text is the shortest that
    denotes the number, so the number is the double nearest to it.
    NaN, the infinities and the numbers with a fractional part have no
    such value. *)
Definition integral_value (text : string) : option Z :=
  let '(negative, body) := match text with
                           | String "-" rest => (true, rest)
                           | _ => (false, text)
                           end in
  let '(mantissa, exponent) := split_at "e" body in
  let '(whole, fraction) := split_at "." mantissa in
  let frac := default "" fraction in
  w ← parse_numeral 10 whole;
  f ← parse_digits 10 frac 0%N;
  e ← match exponent with
      | Some digits => signed_numeral digits
      | None => Some 0
      end;
  let m := w * 10 ^ Z.of_nat (String.length frac) + Z.of_N f in
  let scale := e - Z.of_nat (String.length frac) in
  v ← (if 0 <=? scale then Some (m * 10 ^ scale)
       else if m mod 10 ^ (- scale) =? 0 then Some (m / 10 ^ (- scale))
       else None);
  Some (if negative then - nearest_double v else nearest_double v).

(** BigInt(number): the exact value of an integral number, a range
    error for any other. *)
Definition BigInt_of_number (n : JsNumber) : Completion JsValue :=
  match n with
  | NInt z => Normal (VBigInt z)
  | NReal text =>
      match integral_value text with
      | Some z => Normal (VBigInt z)
      | None => Throw JsRangeError
      end
  end.

Definition upper_char (c : ascii) : ascii :=
  if in_range 97 122 c then ascii_of_nat (nat_of_ascii c - 32) else c.

(** The characters outside ASCII whose upper case is made of ASCII
    letters, by their UTF-8 bytes: dotless i, long s, sharp s and the
    Latin ligatures ff, fi, fl, ffi, ffl, st (long s and t) and st. *)
Definition upper_ascii : list (list nat * string) :=
  [([196; 177], "I"); ([197; 191], "S"); ([195; 159], "SS");
   ([239; 172; 128], "FF"); ([239; 172; 129], "FI"); ([239; 172; 130], "FL");
   ([239; 172; 131], "FFI"); ([239; 172; 132], "FFL");
   ([239; 172; 133], "ST"); ([239; 172; 134], "ST")]%nat.

(** [skip] counts the bytes still to pass over of a character already
    converted. *)
Fixpoint upper_from (skip : nat) (s : string) : string :=
  match s with
  | EmptyString => EmptyString
  | String c rest =>
      match skip with
      | S less => upper_from less rest
      | O =>
          match List.find (fun entry => starts_with (fst entry) s) upper_ascii with
          | Some (bytes, text) => text ++ upper_from (length bytes - 1) rest
          | None => String (upper_char c) (upper_from 0 rest)
          end
      end
  end.

(** toUpperCase, exact on every text whose upper case is ASCII: the
    ASCII letters and the characters of [upper_ascii] are converted.
    Every other character outside ASCII keeps a byte outside ASCII in
    its upper case, as it does here, where its bytes are left alone;
    so the result is one of the type names of [coerceValue] and
    [mapQDBType] here exactly when it is in the source. *)
Definition toUpperCase (s : string) : string := upper_from 0 s.

Definition one_of (s : string) (names : list string) : bool :=
  existsb (String.eqb s) names.

Section ResultCoercion.
(** Built-ins of the host that coerceValue hands a value to and whose
    result it returns untouched: [new Date(value)], [Number(value)]
    and the base64 decoding of a binary cell.  Each of them can throw:
    the first two on a value that has no primitive, the third on text
    that is not base64. *)
Variable new_Date : JsValue -> Completion JsValue.
Variable Number_ : JsValue -> Completion JsValue.
Variable bytes_of_base64 : string -> Completion JsValue.

Definition coerceValue (value : JsValue) (questdbType : string) : Completion JsValue :=
  match value with
  | VNull | VUndefined => Normal VNull
  | _ =>
    let t := toUpperCase questdbType in
    if one_of t ["TIMESTAMP"; "DATE"] then new_Date value
    else if one_of t ["LONG"; "TIMESTAMP_NS"; "LONG256"] then
      match value with
      | VString s => BigInt_of_string s
      | VNumber n => BigInt_of_number n
      | _ => Normal value
      end
    else if one_of t ["BOOLEAN"] then Normal (VBool (truthy value))
    else if one_of t ["BYTE"; "SHORT"; "INT"; "FLOAT"; "DOUBLE"] then Number_ value
    else if one_of t ["BINARY"] then
      match value with
      | VString s => bytes_of_base64 s
      | _ => Normal value
      end
    else Normal value
  end.
End ResultCoercion.

(* ===================================================================== *)
(** * client/connection.ts: the transport, seen from the builders *)
(* ===================================================================== *)

Record QuestDBExecResponse : Type := mkResponse {
  resp_columns : option (list (string * string));
  resp_dataset : option (list (list JsValue));
  resp_updated : option JsNumber
}.

(** [client.exec(sql)]: the promise resolves with a response or rejects
    with one of the transport's own error classes. *)
Definition QuestDBClient : Type := string -> QuestDBExecResponse + TransportError.

(* ===================================================================== *)
(** * query/select.ts: the copy-on-write Select builder *)
(* ===================================================================== *)

(** Node objects live in a store and builders hold their address, so
    that "the parent's node is unchanged" is a statement about the
    store.  The arrays and clause records inside a node are values:
    the class only ever builds them (spread, map, literals) and has no
    statement that writes into one. *)
Definition Store : Type := list SelectNode.

Record SelectBuilder : Type := mkSelectBuilder {
  _node : nat;
  _client : QuestDBClient;
  _def : TableDef
}.

#[global] Instance SelectNode_inhabited : Inhabited SelectNode :=
  populate (mkSelect false [] (FromTable "" None) [] None [] [] None None None).

(** [Partial<SelectNode>]: each key is present or not. *)
Record Partial : Type := mkPartial {
  p_distinct : option bool;
  p_columns : option (list SelectColumn);
  p_from : option FromClause;
  p_joins : option (list JoinClause);
  p_where : option (option SqlExpr);
  p_groupBy : option (list SqlExpr);
  p_orderBy : option (list OrderItem);
  p_limit : option (option LimitClause);
  p_sampleBy : option (option SampleByClause);
  p_latestOn : option (option LatestOnClause)
}.

Definition no_keys : Partial :=
  mkPartial None None None None None None None None None None.

(** One key of [{...a, ...b}]: the later spread wins where it has the key. *)
Definition later {A} (a b : option A) : option A :=
  match b with
  | Some x => Some x
  | None => a
  end.

(** [{...a, ...b}] *)
Definition spread (a b : Partial) : Partial :=
  {| p_distinct := later (p_distinct a) (p_distinct b);
     p_columns := later (p_columns a) (p_columns b);
     p_from := later (p_from a) (p_from b);
     p_joins := later (p_joins a) (p_joins b);
     p_where := later (p_where a) (p_where b);
     p_groupBy := later (p_groupBy a) (p_groupBy b);
     p_orderBy := later (p_orderBy a) (p_orderBy b);
     p_limit := later (p_limit a) (p_limit b);
     p_sampleBy := later (p_sampleBy a) (p_sampleBy b);
     p_latestOn := later (p_latestOn a) (p_latestOn b) |}.

(** A complete node read as the object a spread copies from. *)
Definition keys_of (n : SelectNode) : Partial :=
  {| p_distinct := Some (n_distinct n);
     p_columns := Some (n_columns n);
     p_from := Some (n_from n);
     p_joins := Some (n_joins n);
     p_where := Some (n_where n);
     p_groupBy := Some (n_groupBy n);
     p_orderBy := Some (n_orderBy n);
     p_limit := Some (n_limit n);
     p_sampleBy := Some (n_sampleBy n);
     p_latestOn := Some (n_latestOn n) |}.

Module SelectBuilder.

(** The constructor: the defaults, overridden by the keys of [node],
    become a fresh node object. *)
Definition new (client : QuestDBClient) (def : TableDef) (node : Partial)
           (st : Store) : SelectBuilder * Store :=
  let fresh :=
    mkSelect (default false (p_distinct node))
             (default [] (p_columns node))
             (default (FromTable (name def) None) (p_from node))
             (default [] (p_joins node))
             (default None (p_where node))
             (default [] (p_groupBy node))
             (default [] (p_orderBy node))
             (default None (p_limit node))
             (default None (p_sampleBy node))
             (default None (p_latestOn node)) in
  (mkSelectBuilder (length st) client def, (st ++ [fresh])%list).

(** [this._node]: the object at the builder's address, which the
    constructor allocated. *)
Definition node (b : SelectBuilder) (st : Store) : SelectNode := st !!! _node b.

Definition clone (b : SelectBuilder) (patch : Partial) (st : Store)
  : SelectBuilder * Store :=
  new (_client b) (_def b) (spread (keys_of (node b st)) patch) st.

Definition distinct (b : SelectBuilder) :=
  clone b {| p_distinct := Some true; p_columns := None; p_from := None; p_joins := None;
             p_where := None; p_groupBy := None; p_orderBy := None; p_limit := None;
             p_sampleBy := None; p_latestOn := None |}.

Definition columns (b : SelectBuilder) (cols : list string) (st : Store) :=
  new (_client b) (_def b)
      (spread (keys_of (node b st))
              {| p_distinct := None;
                 p_columns := Some (List.map (fun c => mkColumn (Column None c) None) cols);
                 p_from := None; p_joins := None; p_where := None; p_groupBy := None;
                 p_orderBy := None; p_limit := None; p_sampleBy := None;
                 p_latestOn := None |}) st.

Definition addExpr (b : SelectBuilder) (expr : SqlExpr) (alias : option string)
           (st : Store) :=
  clone b {| p_distinct := None;
             p_columns := Some (n_columns (node b st) ++ [mkColumn expr alias])%list;
             p_from := None; p_joins := None; p_where := None; p_groupBy := None;
             p_orderBy := None; p_limit := None; p_sampleBy := None;
             p_latestOn := None |} st.

Definition patch_where (w : SqlExpr) : Partial :=
  {| p_distinct := None; p_columns := None; p_from := None; p_joins := None;
     p_where := Some (Some w); p_groupBy := None; p_orderBy := None; p_limit := None;
     p_sampleBy := None; p_latestOn := None |}.

Definition where_ (b : SelectBuilder) (fn : ColumnExprs -> SqlExpr) :=
  let exprs := buildColumnExprs (_def b) None in
  clone b (patch_where (fn exprs)).

Definition andWhere (b : SelectBuilder) (fn : ColumnExprs -> SqlExpr) (st : Store) :=
  let exprs := buildColumnExprs (_def b) None in
  let newExpr := fn exprs in
  let w := match n_where (node b st) with
           | Some old => Binary "AND" old newExpr
           | None => newExpr
           end in
  clone b (patch_where w) st.

Definition whereTimestamp (b : SelectBuilder) (column interval : string) (st : Store) :=
  let expr := TimestampIn column interval in
  let w := match n_where (node b st) with
           | Some old => Binary "AND" old expr
           | None => expr
           end in
  clone b (patch_where w) st.

(** [fill] is absent, one strategy, or an array of them. *)
Definition sampleBy (b : SelectBuilder) (interval : string)
           (fill : option (FillStrategy + list FillStrategy)) (align : option Align) :=
  let fillArr := match fill with
                 | Some (inr many) => many
                 | Some (inl one) => [one]
                 | None => []
                 end in
  clone b {| p_distinct := None; p_columns := None; p_from := None; p_joins := None;
             p_where := None; p_groupBy := None; p_orderBy := None; p_limit := None;
             p_sampleBy := Some (Some (mkSampleBy interval fillArr align));
             p_latestOn := None |}.

Definition latestOn (b : SelectBuilder) (partitionBy : list string) (st : Store)
  : Completion SelectBuilder * Store :=
  match present (findDesignatedColumn (def_columns (_def b))) with
  | None => (Throw (JsError "LATEST ON requires a designated timestamp column"), st)
  | Some designated =>
      let '(b', st') :=
        clone b {| p_distinct := None; p_columns := None; p_from := None; p_joins := None;
                   p_where := None; p_groupBy := None; p_orderBy := None; p_limit := None;
                   p_sampleBy := None;
                   p_latestOn := Some (Some (mkLatestOn designated partitionBy)) |} st in
      (Normal b', st')
  end.

Definition OnCallback : Type := ColumnExprs -> ColumnExprs -> SqlExpr.

Definition joinWith (b : SelectBuilder) (type : JoinType) (right : TableDef)
           (alias : string) (on : option OnCallback) (tolerance : option string)
           (st : Store) :=
  let leftExprs := buildColumnExprs (_def b) None in
  let rightExprs := buildColumnExprs right (Some alias) in
  let onExpr := match on with
                | Some f => Some (f leftExprs rightExprs)
                | None => None
                end in
  new (_client b) (_def b)
      (spread (keys_of (node b st))
              {| p_distinct := None; p_columns := None; p_from := None;
                 p_joins := Some (n_joins (node b st)
                                  ++ [mkJoin type (FromTable (name right) (Some alias))
                                             onExpr tolerance])%list;
                 p_where := None; p_groupBy := None; p_orderBy := None; p_limit := None;
                 p_sampleBy := None; p_latestOn := None |}) st.

Definition asofJoin b right alias on tolerance := joinWith b ASOF right alias on tolerance.
Definition ltJoin b right alias on tolerance := joinWith b LT right alias on tolerance.
Definition spliceJoin b right alias on := joinWith b SPLICE right alias on None.
Definition innerJoin b right alias (on : OnCallback) := joinWith b INNER right alias (Some on) None.
Definition leftJoin b right alias (on : OnCallback) := joinWith b LEFT right alias (Some on) None.
Definition crossJoin b right alias := joinWith b CROSS right alias None None.

Definition orderBy (b : SelectBuilder) (column : string) (direction : option Direction)
           (st : Store) :=
  clone b {| p_distinct := None; p_columns := None; p_from := None; p_joins := None;
             p_where := None; p_groupBy := None;
             p_orderBy := Some (n_orderBy (node b st)
                                ++ [mkOrder (Column None column) (default ASC direction)])%list;
             p_limit := None; p_sampleBy := None; p_latestOn := None |} st.

Definition limit (b : SelectBuilder) (count : JsNumber) (offset : option JsNumber) :=
  clone b {| p_distinct := None; p_columns := None; p_from := None; p_joins := None;
             p_where := None; p_groupBy := None; p_orderBy := None;
             p_limit := Some (Some (mkLimit count offset));
             p_sampleBy := None; p_latestOn := None |}.

Definition groupBy (b : SelectBuilder) (columns : list string) :=
  clone b {| p_distinct := None; p_columns := None; p_from := None; p_joins := None;
             p_where := None;
             p_groupBy := Some (List.map (fun c => Column None c) columns);
             p_orderBy := None; p_limit := None; p_sampleBy := None; p_latestOn := None |}.

Definition toSQL (b : SelectBuilder) (st : Store) : Completion string :=
  match n_sampleBy (node b st), n_columns (node b st) with
  | Some _, [] =>
      Throw (JsError ("SAMPLE BY requires explicit columns with at least one aggregation function. "
                      ++ "Use .columns() and .addExpr(fn.avg(...)) instead of SELECT *."))
  | _, _ => serializeSelect (node b st)
  end.

End SelectBuilder.

(* ===================================================================== *)
(** * sql/serialize.ts: INSERT *)
(* ===================================================================== *)

(** [val !== null && typeof val === "object" && "_rawSQL" in val],
    returning [val._rawSQL] when the test holds.  Object.prototype has
    no [_rawSQL], so on an object the test is about own properties;
    arrays and dates have none either. *)
Definition rawSQL_of (val : JsValue) : option JsValue :=
  match val with
  | VObject props | VBare props => own_prop "_rawSQL" props
  | _ => None
  end.

(** The callback of [row.map((val, i) => ...)]: the raw fragment as it
    is, or the literal's text. *)
Definition serializeCell (columnTypes : list QuestDBType) (i : nat) (val : JsValue)
  : Completion JsValue :=
  match rawSQL_of val with
  | Some fragment => Normal fragment
  | None => text ← formatValue val (nth i columnTypes varchar); Normal (VString text)
  end.

Fixpoint serializeCells (columnTypes : list QuestDBType) (i : nat) (row : list JsValue)
  : Completion (list JsValue) :=
  match row with
  | [] => Normal []
  | val :: rest =>
      c ← serializeCell columnTypes i val;
      cs ← serializeCells columnTypes (S i) rest;
      Normal (c :: cs)
  end.

(** [row.map(...).join(", ")]: the join converts the cells once all of
    them are there. *)
Definition serializeRow (columnTypes : list QuestDBType) (row : list JsValue)
  : Completion string :=
  cells ← serializeCells columnTypes 0 row;
  texts ← mapC join_item cells;
  Normal (join ", " texts).

(** The four lines of the statement, given the text of every row. *)
Definition insert_text (table : string) (cols : list string) (valueRows : list string)
  : string :=
  join nl [ "INSERT INTO " ++ escapeIdentifier table;
            "(" ++ join ", " (List.map escapeIdentifier cols) ++ ")";
            "VALUES";
            join ("," ++ nl) (List.map (fun v => "(" ++ v ++ ")") valueRows) ].

Definition serializeInsert (node : InsertNode) : Completion string :=
  match ins_values node with
  | [] => Throw (JsError "INSERT requires at least one row")
  | rows =>
      valueRows ← mapC (serializeRow (ins_columnTypes node)) rows;
      Normal (insert_text (ins_table node) (ins_columns node) valueRows)
  end.

(* ===================================================================== *)
(** * query/insert.ts: the Insert builder *)
(* ===================================================================== *)

(** A row object: a plain object, by its own properties. *)
Abbreviation Row := (gmap string JsValue).

Record InsertBuilder : Type := mkInsertBuilder {
  i_client : QuestDBClient;
  i_def : TableDef;
  _rows : list Row
}.

Module InsertBuilder.

Definition new (client : QuestDBClient) (def : TableDef) : InsertBuilder :=
  mkInsertBuilder client def [].

(** [this._rows.push(row); return this] *)
Definition values (row : Row) (b : InsertBuilder) : InsertBuilder :=
  mkInsertBuilder (i_client b) (i_def b) (_rows b ++ [row])%list.

Definition valuesMany (rows : list Row) (b : InsertBuilder) : InsertBuilder :=
  fold_left (fun acc row => values row acc) rows b.

(** [row[key]]: the row's own property, or else what Object.prototype
    has under that key. *)
Definition get (row : Row) (key : string) : JsValue :=
  match row !! key with
  | Some v => v
  | None => default VUndefined (Object_prototype key)
  end.

Definition is_undefined (v : JsValue) : bool :=
  match v with VUndefined => true | _ => false end.

(** [Object.keys(row)] *)
Definition keys (row : Row) : list string := (map_to_list row).*1.

(** The inner loop over the keys [ks] of one row: a key whose value is
    not undefined is added to the set. *)
Definition add_keys (row : Row) (ks : list string) (acc : gset string) : gset string :=
  fold_left (fun acc key => if is_undefined (get row key) then acc else {[key]} ∪ acc)
            ks acc.

(** The two nested loops that collect the keys carrying a value. *)
Definition allKeys (rows : list Row) : gset string :=
  fold_left (fun acc row => add_keys row (keys row) acc) rows ∅.

Definition has (s : gset string) (key : string) : bool := bool_decide (key ∈ s).

(** The first designated column no row gives a value for. *)
Fixpoint designatedCol (colEntries : list (string * QColumn)) (seen : gset string)
  : option string :=
  match colEntries with
  | [] => None
  | (name, col) :: rest =>
      if (is_designated col && negb (has seen name))%bool then Some name
      else designatedCol rest seen
  end.

(** [name === designatedCol] *)
Definition is_col (name : string) (designated : option string) : bool :=
  match designated with
  | Some d => String.eqb name d
  | None => false
  end.

Definition selected (seen : gset string) (designated : option string)
           (colEntries : list (string * QColumn)) : list (string * QColumn) :=
  List.filter (fun entry => (has seen (fst entry) || is_col (fst entry) designated)%bool)
              colEntries.

Definition now_token : JsValue := VObject [("_rawSQL", VString "now()")].

(** [row[name] ?? null] *)
Definition or_null (v : JsValue) : JsValue :=
  match v with
  | VUndefined | VNull => VNull
  | _ => v
  end.

Definition cell_value (designated : option string) (row : Row) (name : string) : JsValue :=
  if (is_col name designated && is_undefined (get row name))%bool then now_token
  else or_null (get row name).

(** The node toSQL builds before handing it to the serializer. *)
Definition insertNode (b : InsertBuilder) : InsertNode :=
  let colEntries := def_columns (i_def b) in
  let seen := allKeys (_rows b) in
  let designated := designatedCol colEntries seen in
  let chosen := selected seen designated colEntries in
  let colNames := List.map fst chosen in
  let colTypes := List.map (fun entry => qdbType (snd entry)) chosen in
  {| ins_table := name (i_def b);
     ins_columns := colNames;
     ins_values := List.map (fun row => List.map (cell_value designated row) colNames) (_rows b);
     ins_columnTypes := colTypes |}.

Definition toSQL (b : InsertBuilder) : Completion string :=
  serializeInsert (insertNode b).

(** [execute()], run against the log of statements the transport has
    been handed so far; [count] is the resolved [{ count }]. *)
Definition execute (b : InsertBuilder) (sent : list string)
  : Completion nat * list string :=
  match _rows b with
  | [] => (Normal 0%nat, sent)
  | _ =>
      match toSQL b with
      | Throw e => (Throw e, sent)
      | Normal sql =>
          match i_client b sql with
          | inl _ => (Normal (length (_rows b)), (sent ++ [sql])%list)
          | inr e => (Throw (Transport e), (sent ++ [sql])%list)
          end
      end
  end.

End InsertBuilder.

(* ===================================================================== *)
(** * The chained calls of the Select builder, as data *)
(* ===================================================================== *)

(** One constructor per chainable method, carrying its arguments. *)
Inductive Call : Type :=
| CallDistinct
| CallColumns (cols : list string)
| CallAddExpr (expr : SqlExpr) (alias : option string)
| CallWhere (fn : ColumnExprs -> SqlExpr)
| CallAndWhere (fn : ColumnExprs -> SqlExpr)
| CallWhereTimestamp (column interval : string)
| CallSampleBy (interval : string) (fill : option (FillStrategy + list FillStrategy))
               (align : option Align)
| CallLatestOn (partitionBy : list string)
| CallAsofJoin (right : TableDef) (alias : string) (on : option SelectBuilder.OnCallback)
               (tolerance : option string)
| CallLtJoin (right : TableDef) (alias : string) (on : option SelectBuilder.OnCallback)
             (tolerance : option string)
| CallSpliceJoin (right : TableDef) (alias : string) (on : option SelectBuilder.OnCallback)
| CallInnerJoin (right : TableDef) (alias : string) (on : SelectBuilder.OnCallback)
| CallLeftJoin (right : TableDef) (alias : string) (on : SelectBuilder.OnCallback)
| CallCrossJoin (right : TableDef) (alias : string)
| CallOrderBy (column : string) (direction : option Direction)
| CallLimit (count : JsNumber) (offset : option JsNumber)
| CallGroupBy (columns : list string).

Definition returned (r : SelectBuilder * Store) : Completion SelectBuilder * Store :=
  (Normal (fst r), snd r).

(** [b.method(args)] run in store [st]. *)
Definition invoke (c : Call) (b : SelectBuilder) (st : Store)
  : Completion SelectBuilder * Store :=
  match c with
  | CallDistinct => returned (SelectBuilder.distinct b st)
  | CallColumns cols => returned (SelectBuilder.columns b cols st)
  | CallAddExpr expr alias => returned (SelectBuilder.addExpr b expr alias st)
  | CallWhere fn => returned (SelectBuilder.where_ b fn st)
  | CallAndWhere fn => returned (SelectBuilder.andWhere b fn st)
  | CallWhereTimestamp column interval =>
      returned (SelectBuilder.whereTimestamp b column interval st)
  | CallSampleBy interval fill align =>
      returned (SelectBuilder.sampleBy b interval fill align st)
  | CallLatestOn partitionBy => SelectBuilder.latestOn b partitionBy st
  | CallAsofJoin other alias on tolerance =>
      returned (SelectBuilder.asofJoin b other alias on tolerance st)
  | CallLtJoin other alias on tolerance =>
      returned (SelectBuilder.ltJoin b other alias on tolerance st)
  | CallSpliceJoin other alias on => returned (SelectBuilder.spliceJoin b other alias on st)
  | CallInnerJoin other alias on => returned (SelectBuilder.innerJoin b other alias on st)
  | CallLeftJoin other alias on => returned (SelectBuilder.leftJoin b other alias on st)
  | CallCrossJoin other alias => returned (SelectBuilder.crossJoin b other alias st)
  | CallOrderBy column direction => returned (SelectBuilder.orderBy b column direction st)
  | CallLimit count offset => returned (SelectBuilder.limit b count offset st)
  | CallGroupBy columns => returned (SelectBuilder.groupBy b columns st)
  end.

(* ===================================================================== *)
(** * What the specification says, as definitions of its own *)
(* ===================================================================== *)

(** ** "The prior node overlaid with the change" *)

Definition with_distinct (v : bool) (n : SelectNode) : SelectNode :=
  let 'mkSelect _ c f j w g o l s lo := n in mkSelect v c f j w g o l s lo.
Definition with_columns (v : list SelectColumn) (n : SelectNode) : SelectNode :=
  let 'mkSelect d _ f j w g o l s lo := n in mkSelect d v f j w g o l s lo.
Definition with_joins (v : list JoinClause) (n : SelectNode) : SelectNode :=
  let 'mkSelect d c f _ w g o l s lo := n in mkSelect d c f v w g o l s lo.
Definition with_where (v : option SqlExpr) (n : SelectNode) : SelectNode :=
  let 'mkSelect d c f j _ g o l s lo := n in mkSelect d c f j v g o l s lo.
Definition with_groupBy (v : list SqlExpr) (n : SelectNode) : SelectNode :=
  let 'mkSelect d c f j w _ o l s lo := n in mkSelect d c f j w v o l s lo.
Definition with_orderBy (v : list OrderItem) (n : SelectNode) : SelectNode :=
  let 'mkSelect d c f j w g _ l s lo := n in mkSelect d c f j w g v l s lo.
Definition with_limit (v : option LimitClause) (n : SelectNode) : SelectNode :=
  let 'mkSelect d c f j w g o _ s lo := n in mkSelect d c f j w g o v s lo.
Definition with_sampleBy (v : option SampleByClause) (n : SelectNode) : SelectNode :=
  let 'mkSelect d c f j w g o l _ lo := n in mkSelect d c f j w g o l v lo.
Definition with_latestOn (v : option LatestOnClause) (n : SelectNode) : SelectNode :=
  let 'mkSelect d c f j w g o l s _ := n in mkSelect d c f j w g o l s v.

(** WHERE composed with an existing condition through AND. *)
Definition and_onto (old : option SqlExpr) (e : SqlExpr) : SqlExpr :=
  match old with
  | Some w => Binary "AND" w e
  | None => e
  end.

(** The join clause a join call appends: the kind tag, the right table
    under its alias, the predicate the callback returns for the two
    facades, and the tolerance where the kind takes one. *)
Definition join_clause (def : TableDef) (type : JoinType) (right : TableDef) (alias : string)
           (on : option SelectBuilder.OnCallback) (tolerance : option string) : JoinClause :=
  mkJoin type (FromTable (name right) (Some alias))
         (option_map (fun f => f (buildColumnExprs def None)
                                 (buildColumnExprs right (Some alias))) on)
         tolerance.

Definition column_ref (c : string) : SqlExpr := Column None c.

(** The node a call leaves in the new builder, for a parent bound to
    [def] whose node is [n].  LATEST ON is defined when the table has a
    designated timestamp column with a name. *)
Definition overlaid (c : Call) (def : TableDef) (n : SelectNode) : option SelectNode :=
  match c with
  | CallDistinct => Some (with_distinct true n)
  | CallColumns cols =>
      Some (with_columns (List.map (fun c => mkColumn (column_ref c) None) cols) n)
  | CallAddExpr expr alias => Some (with_columns (n_columns n ++ [mkColumn expr alias]) n)
  | CallWhere fn => Some (with_where (Some (fn (buildColumnExprs def None))) n)
  | CallAndWhere fn =>
      Some (with_where (Some (and_onto (n_where n) (fn (buildColumnExprs def None)))) n)
  | CallWhereTimestamp column interval =>
      Some (with_where (Some (and_onto (n_where n) (TimestampIn column interval))) n)
  | CallSampleBy interval fill align =>
      Some (with_sampleBy
              (Some (mkSampleBy interval
                                (match fill with
                                 | None => []
                                 | Some (inl one) => [one]
                                 | Some (inr many) => many
                                 end) align)) n)
  | CallLatestOn partitionBy =>
      match findDesignatedColumn (def_columns def) with
      | Some d => if String.eqb d "" then None
                  else Some (with_latestOn (Some (mkLatestOn d partitionBy)) n)
      | None => None
      end
  | CallAsofJoin other alias on tolerance =>
      Some (with_joins (n_joins n ++ [join_clause def ASOF other alias on tolerance]) n)
  | CallLtJoin other alias on tolerance =>
      Some (with_joins (n_joins n ++ [join_clause def LT other alias on tolerance]) n)
  | CallSpliceJoin other alias on =>
      Some (with_joins (n_joins n ++ [join_clause def SPLICE other alias on None]) n)
  | CallInnerJoin other alias on =>
      Some (with_joins (n_joins n ++ [join_clause def INNER other alias (Some on) None]) n)
  | CallLeftJoin other alias on =>
      Some (with_joins (n_joins n ++ [join_clause def LEFT other alias (Some on) None]) n)
  | CallCrossJoin other alias =>
      Some (with_joins (n_joins n ++ [join_clause def CROSS other alias None None]) n)
  | CallOrderBy column direction =>
      Some (with_orderBy (n_orderBy n ++ [mkOrder (column_ref column) (default ASC direction)]) n)
  | CallLimit count offset => Some (with_limit (Some (mkLimit count offset)) n)
  | CallGroupBy columns => Some (with_groupBy (List.map column_ref columns) n)
  end.

Definition is_latestOn (c : Call) : bool :=
  match c with CallLatestOn _ => true | _ => false end.

(** ** "A left-associative, fully parenthesized chain" *)

(** (((first . r1) . r2) ... . rn), read from its last operand inwards;
    [earlier_first] lists r_n, ..., r_1. *)
Fixpoint chain_inwards {A} (node : A -> A -> A) (first : A) (last_first : list A) : A :=
  match last_first with
  | [] => first
  | last :: earlier => node (chain_inwards node first earlier) last
  end.

Definition left_chain {A} (node : A -> A -> A) (first : A) (rest : list A) : A :=
  chain_inwards node first (rev rest).

Definition parenthesized (op : string) (l r : string) : string :=
  "(" ++ l ++ " " ++ op ++ " " ++ r ++ ")".

(** The text (((s1 op s2) op s3) ... ) of two or more rendered operands. *)
Definition chain_text (op : string) (operands : list string) : string :=
  match operands with
  | [] => ""
  | s :: rest => left_chain (parenthesized op) s rest
  end.

(** ** The messages of the contract violations *)

Definition sample_by_message : string :=
  "SAMPLE BY requires explicit columns with at least one aggregation function. "
  ++ "Use .columns() and .addExpr(fn.avg(...)) instead of SELECT *.".

Definition no_rows : Exn := JsError "INSERT requires at least one row".

Definition no_designated : Exn := JsError "LATEST ON requires a designated timestamp column".

(* ===================================================================== *)
(** * Sample data used to exercise the statements below *)
(* ===================================================================== *)

Definition plain : ColumnMeta := mkMeta None None None None None None None.
Definition designated_ts : QColumn :=
  mkQColumn timestamp (mkMeta (Some true) None None None None None None).

(** The table of the repository's query-builder tests. *)
Definition readings : TableDef :=
  mkTableDef "energy_readings"
             [("ts", designated_ts);
              ("source", mkQColumn symbol plain);
              ("power_kw", mkQColumn double plain)]
             "DAY" true [] None None None.

(** A table without a designated timestamp. *)
Definition lookup_table : TableDef :=
  mkTableDef "lookup"
             [("id", mkQColumn int plain); ("label", mkQColumn varchar plain)]
             "NONE" true [] None None None.

(** A table whose designated timestamp column has the empty name. *)
Definition unnamed_ts_table : TableDef :=
  mkTableDef "odd" [("", designated_ts); ("v", mkQColumn double plain)]
             "DAY" true [] None None None.

Definition idle_client : QuestDBClient := fun _ => inl (mkResponse None None None).

(** Stand-ins for the three host built-ins coerceValue is parametrised
    by, for statements about branches that do not reach them. *)
Definition date_stub (v : JsValue) : Completion JsValue := Normal v.
Definition number_stub (v : JsValue) : Completion JsValue := Normal v.
Definition base64_stub (s : string) : Completion JsValue := Normal (VString s).

Definition solar_row : Row :=
  {[ "source" := VString "solar"; "power_kw" := VNumber (NReal "48.7") ]}.

(** [table.insert({ source: "solar", power_kw: 48.7 })] on [readings]. *)
Definition solar_insert : InsertBuilder :=
  InsertBuilder.values solar_row (InsertBuilder.new idle_client readings).

(** A table whose designated timestamp column is named like a method
    every object inherits, and [insert({ v: 1 })] on it. *)
Definition inherited_name_table : TableDef :=
  mkTableDef "events" [("toString", designated_ts); ("v", mkQColumn double plain)]
             "DAY" true [] None None None.

Definition inherited_name_insert : InsertBuilder :=
  InsertBuilder.values {[ "v" := VNumber (NInt 1) ]}
                       (InsertBuilder.new idle_client inherited_name_table).

(** A fresh [select()] on each table: the builder and the store it lives in. *)
Definition readings_select : SelectBuilder * Store :=
  SelectBuilder.new idle_client readings no_keys [].
Definition lookup_select : SelectBuilder * Store :=
  SelectBuilder.new idle_client lookup_table no_keys [].
Definition unnamed_ts_select : SelectBuilder * Store :=
  SelectBuilder.new idle_client unnamed_ts_table no_keys [].

(** [SELECT * FROM energy_readings], the node of a fresh select. *)
Definition readings_star : SelectNode :=
  mkSelect false [] (FromTable "energy_readings" None) [] None [] [] None None None.

(* ===================================================================== *)
(** * Reading delimited text back *)
(* ===================================================================== *)

(** How the dialect reads text delimited by a quote character [q]
    (sql/escape.ts: single quotes around strings with [''] for a quote,
    double quotes around identifiers with the same doubling): after the
    opening quote, a doubled quote stands for one quote, and a single
    one closes the text and must be its last character. *)
Fixpoint read_body (q : ascii) (s : string) : option string :=
  match s with
  | EmptyString => None
  | String c rest =>
      if Ascii.eqb c q then
        match rest with
        | EmptyString => Some EmptyString
        | String c' rest' =>
            if Ascii.eqb c' q then option_map (String q) (read_body q rest') else None
        end
      else option_map (String c) (read_body q rest)
  end.

Definition read_delimited (q : ascii) (s : string) : option string :=
  match s with
  | EmptyString => None
  | String c rest => if Ascii.eqb c q then read_body q rest else None
  end.

(** An identifier as the dialect reads it: bare when it matches the
    safe pattern, delimited by double quotes otherwise. *)
Definition read_identifier (s : string) : option string :=
  if safe_identifier s then Some s else read_delimited dquote s.

(** The column types whose literal is a quoted string whatever the value. *)
Definition string_like (t : QuestDBType) : bool :=
  match t with
  | varchar | string_ | symbol | uuid | ipv4 | long256 | char | decimal => true
  | _ => false
  end.

Definition is_nullish (v : JsValue) : bool :=
  match v with VNull | VUndefined => true | _ => false end.

Definition is_invalid_date (v : JsValue) : bool :=
  match v with
  | VDate d => match date_iso d with None => true | Some _ => false end
  | _ => false
  end.

(* ===================================================================== *)
(** * query/expression.ts: aggregate helpers *)
(* ===================================================================== *)

Module fn.

(** [agg(name, col?, alias?)]: the column argument is there when [col]
    is truthy. *)
Definition agg (name : string) (col : option string) (alias : option string) : SqlExpr :=
  Aggregate name
            (match present col with
             | Some c => [Column None c]
             | None => []
             end)
            alias.

Definition count (col : option string) (alias : option string) : SqlExpr :=
  match present col with
  | Some _ => agg "count" col alias
  | None => Aggregate "count" [Raw "*"] alias
  end.

Definition sum (col : string) (alias : option string) := agg "sum" (Some col) alias.
Definition avg (col : string) (alias : option string) := agg "avg" (Some col) alias.
Definition min (col : string) (alias : option string) := agg "min" (Some col) alias.
Definition max (col : string) (alias : option string) := agg "max" (Some col) alias.
Definition first (col : string) (alias : option string) := agg "first" (Some col) alias.
Definition last (col : string) (alias : option string) := agg "last" (Some col) alias.
Definition countDistinct (col : string) (alias : option string) :=
  agg "count_distinct" (Some col) alias.
Definition ksum (col : string) (alias : option string) := agg "ksum" (Some col) alias.
Definition nsum (col : string) (alias : option string) := agg "nsum" (Some col) alias.

End fn.

(** The text of a column reference, as serializeExpr renders it. *)
Definition column_text (table : option string) (name : string) : string :=
  match present table with
  | Some t => escapeIdentifier t ++ "." ++ escapeIdentifier name
  | None => escapeIdentifier name
  end.

(* ===================================================================== *)
(** * Chains of Select builder calls *)
(* ===================================================================== *)

(** The key of the node a chained call writes. *)
Inductive Clause : Type :=
| ClDistinct | ClColumns | ClJoins | ClWhere | ClGroupBy | ClOrderBy | ClLimit
| ClSampleBy | ClLatestOn.

Definition clause_of (c : Call) : Clause :=
  match c with
  | CallDistinct => ClDistinct
  | CallColumns _ | CallAddExpr _ _ => ClColumns
  | CallWhere _ | CallAndWhere _ | CallWhereTimestamp _ _ => ClWhere
  | CallSampleBy _ _ _ => ClSampleBy
  | CallLatestOn _ => ClLatestOn
  | CallAsofJoin _ _ _ _ | CallLtJoin _ _ _ _ | CallSpliceJoin _ _ _
  | CallInnerJoin _ _ _ | CallLeftJoin _ _ _ | CallCrossJoin _ _ => ClJoins
  | CallOrderBy _ _ => ClOrderBy
  | CallLimit _ _ => ClLimit
  | CallGroupBy _ => ClGroupBy
  end.

(** [b.c1(...).c2(...)]: the node of the builder the chain ends in,
    when both calls return. *)
Definition chain2 (c1 c2 : Call) (b : SelectBuilder) (st : Store) : option SelectNode :=
  match invoke c1 b st with
  | (Normal b1, st1) =>
      match invoke c2 b1 st1 with
      | (Normal b2, st2) => Some (SelectBuilder.node b2 st2)
      | (Throw _, _) => None
      end
  | (Throw _, _) => None
  end.

(** A row that gives the designated [ts] explicitly, as null. *)
Definition dated_row : Row :=
  {[ "ts" := VNull; "source" := VString "wind" ]}.

(** [table.insert([{ ts: null, source: "wind" }, { source: "solar", power_kw: 48.7 }])]. *)
Definition mixed_insert : InsertBuilder :=
  InsertBuilder.valuesMany [dated_row; solar_row] (InsertBuilder.new idle_client readings).

(* ===================================================================== *)
(** * sql/serialize.ts and query/update.ts: UPDATE *)
(* ===================================================================== *)

Record UpdateNode : Type := mkUpdate {
  upd_table : string;
  upd_set : list (string * SqlExpr);
  upd_from : option FromClause;
  upd_where : option SqlExpr
}.

(** One [col = expr] of the SET clause. *)
Definition serializeAssignment (s : string * SqlExpr) : Completion string :=
  v ← serializeExpr (snd s);
  Normal (escapeIdentifier (fst s) ++ " = " ++ v).

Definition serializeUpdate (node : UpdateNode) : Completion string :=
  sets ← mapC serializeAssignment (upd_set node);
  fr ← match upd_from node with
       | Some f => t ← serializeFrom f; Normal ["FROM " ++ t]
       | None => Normal []
       end;
  wh ← match upd_where node with
       | Some w => e ← serializeExpr w; Normal ["WHERE " ++ e]
       | None => Normal []
       end;
  Normal (join nl (["UPDATE " ++ escapeIdentifier (upd_table node);
                    "SET " ++ join ", " sets] ++ fr ++ wh)).

(** The builder owns one node and changes it in place; every method
    returns the builder itself, here the builder after the change. *)
Record UpdateBuilder : Type := mkUpdateBuilder {
  u_client : QuestDBClient;
  u_def : TableDef;
  u_node : UpdateNode
}.

Module UpdateBuilder.

Definition new (client : QuestDBClient) (def : TableDef) : UpdateBuilder :=
  mkUpdateBuilder client def (mkUpdate (name def) [] None None).

(** [this._def.columns[key]] *)
Fixpoint column (key : string) (cols : list (string * QColumn)) : option QColumn :=
  match cols with
  | [] => None
  | (k, col) :: rest => if String.eqb k key then Some col else column key rest
  end.

(** [col ? col.qdbType : "varchar"] *)
Definition declared (def : TableDef) (key : string) : QuestDBType :=
  match column key (def_columns def) with
  | Some col => qdbType col
  | None => varchar
  end.

(** One turn of the loop of [set] over [Object.entries(values)]. *)
Definition assign (def : TableDef) (acc : list (string * SqlExpr)) (entry : string * JsValue)
  : list (string * SqlExpr) :=
  match snd entry with
  | VUndefined => acc
  | value => (acc ++ [(fst entry, Literal value (declared def (fst entry)))])%list
  end.

(** [values] lists the entries of the argument object in the order
    Object.entries walks them. *)
Definition set (values : list (string * JsValue)) (b : UpdateBuilder) : UpdateBuilder :=
  mkUpdateBuilder (u_client b) (u_def b)
    (mkUpdate (upd_table (u_node b))
              (fold_left (assign (u_def b)) values (upd_set (u_node b)))
              (upd_from (u_node b)) (upd_where (u_node b))).

Definition from (table : TableDef) (alias : option string) (b : UpdateBuilder)
  : UpdateBuilder :=
  mkUpdateBuilder (u_client b) (u_def b)
    (mkUpdate (upd_table (u_node b)) (upd_set (u_node b))
              (Some (FromTable (name table) alias)) (upd_where (u_node b))).

Definition where_ (fn : ColumnExprs -> SqlExpr) (b : UpdateBuilder) : UpdateBuilder :=
  let exprs := buildColumnExprs (u_def b) None in
  mkUpdateBuilder (u_client b) (u_def b)
    (mkUpdate (upd_table (u_node b)) (upd_set (u_node b)) (upd_from (u_node b))
              (Some (fn exprs))).

Definition toSQL (b : UpdateBuilder) : Completion string := serializeUpdate (u_node b).

(** [execute()], run against the log of statements the transport has
    been handed so far; the value is the resolved [updated] count. *)
Definition execute (b : UpdateBuilder) (sent : list string)
  : Completion JsNumber * list string :=
  match toSQL b with
  | Throw e => (Throw e, sent)
  | Normal sql =>
      match u_client b sql with
      | inl response => (Normal (default (NInt 0) (resp_updated response)), (sent ++ [sql])%list)
      | inr e => (Throw (Transport e), (sent ++ [sql])%list)
      end
  end.

End UpdateBuilder.


(* ===================================================================== *)
(** * types/result.ts: rows of a response; query/select.ts: execute, first *)
(* ===================================================================== *)

Section ResultSet.
(** The same three host built-ins coerceValue is parametrised by. *)
Variable new_Date : JsValue -> Completion JsValue.
Variable Number_ : JsValue -> Completion JsValue.
Variable bytes_of_base64 : string -> Completion JsValue.

(** [obj[name] = v] on the row object under construction, by its own
    properties: the key [__proto__] reaches the setter Object.prototype
    has for it, which creates no property. *)
Definition assign_key (name : string) (v : JsValue) (obj : gmap string JsValue)
  : gmap string JsValue :=
  if String.eqb name "__proto__" then obj else <[name := v]> obj.

(** The loop over the column list that fills one row object: [row[i]]
    is undefined past the end of the row, and a later column of the
    same name overwrites an earlier one. *)
Fixpoint parseCells (columns : list (string * string)) (i : nat) (row : list JsValue)
         (obj : gmap string JsValue) : Completion (gmap string JsValue) :=
  match columns with
  | [] => Normal obj
  | (name, type) :: rest =>
      v ← coerceValue new_Date Number_ bytes_of_base64 (default VUndefined (row !! i)) type;
      parseCells rest (S i) row (assign_key name v obj)
  end.

Definition parseResultSet (response : QuestDBExecResponse)
  : Completion (list (gmap string JsValue)) :=
  match resp_columns response, resp_dataset response with
  | Some columns, Some dataset => mapC (fun row => parseCells columns 0 row ∅) dataset
  | _, _ => Normal []
  end.

(** [SelectBuilder.execute()], run in store [st] against the log of
    statements the transport has been handed so far. *)
Definition select_execute (b : SelectBuilder) (st : Store) (sent : list string)
  : Completion (list (gmap string JsValue)) * list string :=
  match SelectBuilder.toSQL b st with
  | Throw e => (Throw e, sent)
  | Normal sql =>
      match _client b sql with
      | inl response => (parseResultSet response, (sent ++ [sql])%list)
      | inr e => (Throw (Transport e), (sent ++ [sql])%list)
      end
  end.

(** [SelectBuilder.first()]: [None] stands for the resolved null. *)
Definition select_first (b : SelectBuilder) (st : Store) (sent : list string)
  : Completion (option (gmap string JsValue)) * list string * Store :=
  let '(limited, st') := SelectBuilder.limit b (NInt 1) None st in
  let '(results, sent') := select_execute limited st' sent in
  (rows ← results; Normal (head rows), sent', st').

End ResultSet.

(** A response of one LONG column with a cell, an empty row and a cell
    too many. *)
Definition ids_response : QuestDBExecResponse :=
  mkResponse (Some [("id", "LONG"); ("tag", "SYMBOL")])
             (Some [[VString "7"; VString "a"]; []; [VString "9"; VNull; VBool true]])
             None.

Definition answering (response : QuestDBExecResponse) : QuestDBClient :=
  fun _ => inl response.

(** [select().limit(10, 5)] on [readings], against a transport that
    answers [ids_response]. *)
Definition paged_select : SelectBuilder * Store :=
  let '(b, st) := SelectBuilder.new (answering ids_response) readings no_keys [] in
  SelectBuilder.limit b (NInt 10) (Some (NInt 5)) st.

(* ===================================================================== *)
(** * ddl/create.ts, ddl/alter.ts, ddl/drop.ts, ddl/describe.ts *)
(* ===================================================================== *)

(** The string a member of the QuestDBType union is. *)
Definition type_name (t : QuestDBType) : string :=
  match t with
  | boolean => "boolean" | byte => "byte" | short => "short" | char => "char"
  | int => "int" | float => "float" | long => "long" | double => "double"
  | decimal => "decimal" | date => "date" | timestamp => "timestamp"
  | timestamp_ns => "timestamp_ns" | symbol => "symbol" | varchar => "varchar"
  | string_ => "string" | uuid => "uuid" | ipv4 => "ipv4" | binary => "binary"
  | long256 => "long256" | geohash => "geohash" | array => "array"
  end.

Definition mapQDBType (col : QColumn) : string :=
  match qdbType col with
  | symbol =>
      let sql := "SYMBOL" in
      let sql := match symbolCapacity (meta col) with
                 | Some n => sql ++ " CAPACITY " ++ number_to_string n
                 | None => sql
                 end in
      let sql := match symbolCache (meta col) with
                 | Some true => sql ++ " CACHE"
                 | _ => sql
                 end in
      let sql := match symbolCache (meta col) with
                 | Some false => sql ++ " NOCACHE"
                 | _ => sql
                 end in
      match symbolIndex (meta col) with
      | Some true =>
          let sql := sql ++ " INDEX" in
          match symbolIndexCapacity (meta col) with
          | Some n => sql ++ " CAPACITY " ++ number_to_string n
          | None => sql
          end
      | _ => sql
      end
  | geohash =>
      "GEOHASH(" ++ number_to_string (default (NInt 20) (geohashBits (meta col))) ++ "b)"
  | array => toUpperCase (type_name (default double (arrayType (meta col)))) ++ "[]"
  | timestamp_ns => "TIMESTAMP"
  | t => toUpperCase (type_name t)
  end.

(** Whether the transport resolves a statement. *)
Definition accepts (client : QuestDBClient) (sql : string) : bool :=
  match client sql with inl _ => true | inr _ => false end.

(** [await client.exec(sql)] with its result dropped, against the log
    of statements sent so far. *)
Definition exec_ (client : QuestDBClient) (sql : string) (sent : list string)
  : Completion unit * list string :=
  match client sql with
  | inl _ => (Normal tt, (sent ++ [sql])%list)
  | inr e => (Throw (Transport e), (sent ++ [sql])%list)
  end.

Record CreateBuilder : Type := mkCreateBuilder {
  c_client : QuestDBClient;
  c_def : TableDef;
  ifNotExistsFlag : bool
}.

Module CreateBuilder.

Definition new (client : QuestDBClient) (def : TableDef) : CreateBuilder :=
  mkCreateBuilder client def false.

(** Sets the flag of the builder and returns the builder. *)
Definition ifNotExists (b : CreateBuilder) : CreateBuilder :=
  mkCreateBuilder (c_client b) (c_def b) true.

Definition toSQL (b : CreateBuilder) : string :=
  let def := c_def b in
  let cols := List.map (fun '(name, col) =>
                          "  " ++ escapeIdentifier name ++ " " ++ mapQDBType col)
                       (def_columns def) in
  let sql := "CREATE TABLE" in
  let sql := if ifNotExistsFlag b then sql ++ " IF NOT EXISTS" else sql in
  let sql := sql ++ " " ++ escapeIdentifier (name def) ++ " (" ++ nl in
  let sql := sql ++ join ("," ++ nl) cols in
  let sql := sql ++ nl ++ ")" in
  let sql := match present (findDesignatedColumn (def_columns def)) with
             | Some designated => sql ++ " timestamp(" ++ escapeIdentifier designated ++ ")"
             | None => sql
             end in
  let sql := sql ++ " PARTITION BY " ++ partitionBy def in
  let sql := sql ++ (if wal def then " WAL" else " BYPASS WAL") in
  let sql := match dedupKeys def with
             | [] => sql
             | keys => sql ++ " DEDUP UPSERT KEYS("
                           ++ join ", " (List.map escapeIdentifier keys) ++ ")"
             end in
  let rows := match maxUncommittedRows def with
              | Some n => ["maxUncommittedRows=" ++ number_to_string n]
              | None => []
              end in
  let lag := match o3MaxLag def with
             | Some lag => ["o3MaxLag=" ++ lag]
             | None => []
             end in
  let withParams := (rows ++ lag)%list in
  match withParams with
  | [] => sql
  | _ => sql ++ nl ++ "WITH " ++ join ", " withParams
  end.

Definition execute (b : CreateBuilder) (sent : list string) : Completion unit * list string :=
  let sql := toSQL b in
  match exec_ (c_client b) sql sent with
  | (Throw e, sent') => (Throw e, sent')
  | (Normal _, sent') =>
      match present (ttl (c_def b)) with
      | Some t =>
          exec_ (c_client b)
                ("ALTER TABLE " ++ escapeIdentifier (name (c_def b))
                 ++ " SET PARAM ttl = '" ++ t ++ "'")
                sent'
      | None => (Normal tt, sent')
      end
  end.

End CreateBuilder.

(** The client over several requests: what it answers to a statement
    may depend on the statements it was sent before, so it is a client
    for every log of statements sent so far.  (One request sees it at
    one log only, which is how the other builders take it.) *)
Definition StatefulClient : Type := list string -> QuestDBClient.

(** The Alter builder is one object: its methods push onto its
    [operations] array and return the builder itself, so each is a
    transition of the builder's state. *)
Record AlterBuilder : Type := mkAlterBuilder {
  a_client : StatefulClient;
  a_def : TableDef;
  operations : list string
}.

Module AlterBuilder.

Definition new (client : StatefulClient) (def : TableDef) : AlterBuilder :=
  mkAlterBuilder client def [].

Definition tableName (b : AlterBuilder) : string := escapeIdentifier (name (a_def b)).

Definition push (b : AlterBuilder) (sql : string) : AlterBuilder :=
  mkAlterBuilder (a_client b) (a_def b) (operations b ++ [sql])%list.

Definition addColumn (b : AlterBuilder) (name : string) (col : QColumn) : AlterBuilder :=
  push b ("ALTER TABLE " ++ tableName b ++ " ADD COLUMN " ++ escapeIdentifier name
          ++ " " ++ mapQDBType col).

Definition dropColumn (b : AlterBuilder) (name : string) : AlterBuilder :=
  push b ("ALTER TABLE " ++ tableName b ++ " DROP COLUMN " ++ escapeIdentifier name).

Definition renameColumn (b : AlterBuilder) (from to : string) : AlterBuilder :=
  push b ("ALTER TABLE " ++ tableName b ++ " RENAME COLUMN " ++ escapeIdentifier from
          ++ " TO " ++ escapeIdentifier to).

Definition setTTL (b : AlterBuilder) (ttl : string) : AlterBuilder :=
  push b ("ALTER TABLE " ++ tableName b ++ " SET PARAM ttl = '" ++ ttl ++ "'").

Definition setMaxUncommittedRows (b : AlterBuilder) (n : JsNumber) : AlterBuilder :=
  push b ("ALTER TABLE " ++ tableName b ++ " SET PARAM maxUncommittedRows = "
          ++ number_to_string n).

Definition setO3MaxLag (b : AlterBuilder) (lag : string) : AlterBuilder :=
  push b ("ALTER TABLE " ++ tableName b ++ " SET PARAM o3MaxLag = '" ++ lag ++ "'").

Definition dropPartition (b : AlterBuilder) (partition : string) : AlterBuilder :=
  push b ("ALTER TABLE " ++ tableName b ++ " DROP PARTITION LIST '" ++ partition ++ "'").

Definition detachPartition (b : AlterBuilder) (partition : string) : AlterBuilder :=
  push b ("ALTER TABLE " ++ tableName b ++ " DETACH PARTITION LIST '" ++ partition ++ "'").

Definition attachPartition (b : AlterBuilder) (partition : string) : AlterBuilder :=
  push b ("ALTER TABLE " ++ tableName b ++ " ATTACH PARTITION LIST '" ++ partition ++ "'").

Definition squashPartitions (b : AlterBuilder) : AlterBuilder :=
  push b ("ALTER TABLE " ++ tableName b ++ " SQUASH PARTITIONS").

Definition resumeWal (b : AlterBuilder) : AlterBuilder :=
  push b ("ALTER TABLE " ++ tableName b ++ " RESUME WAL").

Definition toSQL (b : AlterBuilder) : list string := operations b.

(** The loop of execute over the operations still to send. *)
Fixpoint exec_each (client : StatefulClient) (sqls : list string) (sent : list string)
  : Completion unit * list string :=
  match sqls with
  | [] => (Normal tt, sent)
  | sql :: rest =>
      match exec_ (client sent) sql sent with
      | (Throw e, sent') => (Throw e, sent')
      | (Normal _, sent') => exec_each client rest sent'
      end
  end.

Definition execute (b : AlterBuilder) (sent : list string) : Completion unit * list string :=
  exec_each (a_client b) (operations b) sent.

End AlterBuilder.
Definition dropTable (client : QuestDBClient) (name : string) (ifExists : bool)
           (sent : list string) : Completion unit * list string :=
  exec_ client ("DROP TABLE" ++ (if ifExists then " IF EXISTS" else "") ++ " "
                ++ escapeIdentifier name) sent.

Definition truncateTable (client : QuestDBClient) (name : string) (sent : list string)
  : Completion unit * list string :=
  exec_ client ("TRUNCATE TABLE " ++ escapeIdentifier name) sent.

(** The try/catch around exec turns every rejection into [false]. *)
Definition tableExists (client : QuestDBClient) (name : string) (sent : list string)
  : bool * list string :=
  match exec_ client ("SELECT * FROM table_columns('" ++ escapeString name ++ "') LIMIT 1")
              sent with
  | (Normal _, sent') => (true, sent')
  | (Throw _, sent') => (false, sent')
  end.

(** schema/table.ts *)
Record Table : Type := mkTable {
  t_def : TableDef;
  t_client : QuestDBClient
}.

Module Table.

(** [partition] is one name or an array of names. *)
Definition deletePartition (t : Table) (partition : string + list string)
           (sent : list string) : Completion unit * list string :=
  let partitions := match partition with inl p => [p] | inr ps => ps end in
  let list := join ", " (List.map (fun p => "'" ++ p ++ "'") partitions) in
  exec_ (t_client t)
        ("ALTER TABLE " ++ escapeIdentifier (name (t_def t)) ++ " DROP PARTITION LIST " ++ list)
        sent.

End Table.

(** One call on an Alter builder. *)
Inductive AlterCall : Type :=
| AddColumn (name : string) (col : QColumn)
| DropColumn (name : string)
| RenameColumn (from to : string)
| SetTTL (ttl : string)
| SetMaxUncommittedRows (n : JsNumber)
| SetO3MaxLag (lag : string)
| DropPartition (partition : string)
| DetachPartition (partition : string)
| AttachPartition (partition : string)
| SquashPartitions
| ResumeWal.

Definition alter_call (b : AlterBuilder) (c : AlterCall) : AlterBuilder :=
  match c with
  | AddColumn name col => AlterBuilder.addColumn b name col
  | DropColumn name => AlterBuilder.dropColumn b name
  | RenameColumn from to => AlterBuilder.renameColumn b from to
  | SetTTL ttl => AlterBuilder.setTTL b ttl
  | SetMaxUncommittedRows n => AlterBuilder.setMaxUncommittedRows b n
  | SetO3MaxLag lag => AlterBuilder.setO3MaxLag b lag
  | DropPartition partition => AlterBuilder.dropPartition b partition
  | DetachPartition partition => AlterBuilder.detachPartition b partition
  | AttachPartition partition => AlterBuilder.attachPartition b partition
  | SquashPartitions => AlterBuilder.squashPartitions b
  | ResumeWal => AlterBuilder.resumeWal b
  end.

(** The statements a chain of calls leaves queued. *)
Definition alter_chain (b : AlterBuilder) (calls : list AlterCall) : AlterBuilder :=
  fold_left alter_call calls b.

(** The statements are accepted one after the other, the first at the
    log [sent]. *)
Fixpoint accepted_in_turn (client : StatefulClient) (sent : list string) (sqls : list string)
  : Prop :=
  match sqls with
  | [] => True
  | sql :: rest =>
      accepts (client sent) sql = true /\ accepted_in_turn client (sent ++ [sql])%list rest
  end.

Definition no_quote (s : string) : bool :=
  all_chars (fun c => negb (Ascii.eqb c squote)) s.

Definition same_ddl_family (a b : QuestDBType) : bool :=
  match a, b with
  | timestamp, timestamp_ns | timestamp_ns, timestamp => true
  | _, _ => false
  end.

(** A transport that rejects the statements that mention a TTL. *)
Definition ttl_refusing (sql : string) : bool :=
  String.eqb sql "ALTER TABLE energy_readings SET PARAM ttl = '1 WEEK'".

(** A server that refuses any statement it has been sent before. *)
Definition once_only : StatefulClient :=
  fun sent sql => if existsb (String.eqb sql) sent
                  then inr (QuestDBError 400 "already done")
                  else inl (mkResponse None None None).

Definition picky_client : QuestDBClient :=
  fun sql => if ttl_refusing sql then inr (QuestDBError 400 "bad ttl")
             else inl (mkResponse None None None).

Definition readings_with_ttl : TableDef :=
  mkTableDef "energy_readings" (def_columns readings) "DAY" true [] (Some "1 WEEK") None None.

(** [" AS alias"] when the alias is truthy, nothing otherwise. *)
Definition as_clause (alias : option string) : string :=
  match present alias with
  | Some a => " AS " ++ escapeIdentifier a
  | None => ""
  end.

(* ===================================================================== *)
(** * Properties *)
(* ===================================================================== *)

(** ** Literal formatting and identifier escaping *)

(** C3: for every column type, binary and array included, a null or an
    undefined value formats as the NULL token; the call returns, it
    does not throw. *)
Theorem formatValue_null_is_NULL :
  forall type : QuestDBType,
    formatValue VNull type = Normal "NULL" /\ formatValue VUndefined type = Normal "NULL".
Proof. intros type. split; reflexivity. Qed.

Lemma string_length_app (s1 s2 : string) :
  String.length (s1 ++ s2) = (String.length s1 + String.length s2)%nat.
Proof. induction s1 as [|a s1 IH]; simpl; [reflexivity|now rewrite IH]. Qed.

Lemma replace_all_length (c : ascii) (by_ s : string) :
  (1 <= String.length by_)%nat ->
  (String.length s <= String.length (replace_all c by_ s))%nat.
Proof.
  intros Hby. induction s as [|a rest IH]; simpl; [lia|].
  destruct (Ascii.eqb a c).
  - rewrite string_length_app. lia.
  - simpl. lia.
Qed.

Lemma quoted_form_needs_quoting (s : string) :
  safe_identifier (String dquote s) = false.
Proof. reflexivity. Qed.

Lemma escapeIdentifier_safe (x : string) :
  safe_identifier x = true -> escapeIdentifier x = x.
Proof. intros H. unfold escapeIdentifier. now rewrite H. Qed.

Lemma escapeIdentifier_unsafe (x : string) :
  safe_identifier x = false ->
  escapeIdentifier x
  = str1 dquote ++ replace_all dquote (str1 dquote ++ str1 dquote) x ++ str1 dquote.
Proof. intros H. unfold escapeIdentifier. now rewrite H. Qed.

Lemma escapeIdentifier_grows (x : string) :
  safe_identifier x = false ->
  (String.length x + 2 <= String.length (escapeIdentifier x))%nat.
Proof.
  intros H. rewrite (escapeIdentifier_unsafe x H).
  assert (Hlen : (String.length x
                  <= String.length (replace_all dquote (str1 dquote ++ str1 dquote) x))%nat).
  { apply replace_all_length. simpl. lia. }
  rewrite !string_length_app. simpl. lia.
Qed.

(** C4, as the code has it: a name matching the safe pattern is
    returned unchanged; any other name is wrapped in double quotes with
    its own double quotes doubled; and escaping twice equals escaping
    once exactly for the names that needed no quoting -- the quoted
    form always needs quoting again. *)
Theorem escapeIdentifier_cases :
  forall x : string,
    (safe_identifier x = true -> escapeIdentifier x = x)
    /\ (safe_identifier x = false ->
        escapeIdentifier x
        = str1 dquote ++ replace_all dquote (str1 dquote ++ str1 dquote) x ++ str1 dquote)
    /\ (escapeIdentifier (escapeIdentifier x) = escapeIdentifier x
        <-> safe_identifier x = true).
Proof.
  intros x. split; [apply escapeIdentifier_safe|].
  split; [apply escapeIdentifier_unsafe|].
  split.
  - intros Heq. destruct (safe_identifier x) eqn:Hsafe; [reflexivity|exfalso].
    assert (Hq : safe_identifier (escapeIdentifier x) = false).
    { rewrite (escapeIdentifier_unsafe x Hsafe). apply quoted_form_needs_quoting. }
    pose proof (escapeIdentifier_grows _ Hq) as Hgrow.
    rewrite Heq in Hgrow. lia.
  - intros Hsafe. now rewrite !(escapeIdentifier_safe x Hsafe).
Qed.

(** C4 as the specification words it -- twice equals once "is false
    unless x already required quoting" -- fails in both directions: a
    safe name is a fixed point, and a name that required quoting is
    not. *)
Lemma escapeIdentifier_twice_examples :
  (safe_identifier "ts" = true
   /\ escapeIdentifier (escapeIdentifier "ts") = escapeIdentifier "ts")
  /\ (safe_identifier "my col" = false
      /\ escapeIdentifier (escapeIdentifier "my col") <> escapeIdentifier "my col").
Proof. repeat split; try reflexivity. vm_compute. discriminate. Qed.

(** ** Contract violations raised before rendering *)

(** C6: a Select builder whose node carries a SAMPLE BY clause -- any
    interval, any fill list, any alignment -- and an empty projection
    list throws from toSQL; the completion carries the error and no
    SQL text. *)
Theorem toSQL_sampleBy_star_throws :
  forall (b : SelectBuilder) (st : Store)
         (interval : string) (fill : list FillStrategy) (align : option Align),
    n_sampleBy (SelectBuilder.node b st) = Some (mkSampleBy interval fill align) ->
    n_columns (SelectBuilder.node b st) = [] ->
    SelectBuilder.toSQL b st = Throw (JsError sample_by_message).
Proof.
  intros b st interval fill align Hs Hc.
  unfold SelectBuilder.toSQL. rewrite Hs, Hc. reflexivity.
Qed.

Lemma toSQL_sampleBy_star_throws_witness :
  let '(b0, st0) := SelectBuilder.new idle_client readings no_keys [] in
  let '(b, st) :=
    SelectBuilder.sampleBy b0 "1h" (Some (inr [FillNULL; FillPREV])) (Some CALENDAR) st0 in
  SelectBuilder.toSQL b st = Throw (JsError sample_by_message).
Proof.
  apply (toSQL_sampleBy_star_throws _ _ "1h" [FillNULL; FillPREV] (Some CALENDAR));
    reflexivity.
Defined.

(** C7: an InsertNode with an empty row matrix does not serialize: the
    call throws the "at least one row" error and yields no text. *)
Theorem serializeInsert_empty_throws :
  forall (table : string) (cols : list string) (types : list QuestDBType),
    serializeInsert (mkInsert table cols [] types)
    = Throw (JsError "INSERT requires at least one row").
Proof. reflexivity. Qed.

(** ** Logical combinators *)

Lemma bind_Normal {A B} (a : A) (k : A -> Completion B) : (Normal a ≫= k) = k a.
Proof. reflexivity. Qed.

Lemma bind_Throw {A B} (e : Exn) (k : A -> Completion B) : (Throw e ≫= k) = Throw e.
Proof. reflexivity. Qed.

Lemma mapC_app {A B} (f : A -> Completion B) (l1 l2 : list A) :
  mapC f (l1 ++ l2)%list = (xs ← mapC f l1; ys ← mapC f l2; Normal (xs ++ ys)%list).
Proof.
  induction l1 as [|x l1 IH]; simpl.
  - destruct (mapC f l2); reflexivity.
  - destruct (f x) as [y|e]; simpl; [|reflexivity].
    rewrite IH. destruct (mapC f l1); simpl; [|reflexivity].
    destruct (mapC f l2); reflexivity.
Qed.

Lemma mapC_cons_nonempty {A B} (f : A -> Completion B) (x : A) (l : list A) :
  mapC f (x :: l) <> Normal [].
Proof.
  simpl. destruct (f x); simpl; [|discriminate].
  destruct (mapC f l); discriminate.
Qed.

Lemma fold_left_left_chain {A} (f : A -> A -> A) (first : A) (rest : list A) :
  fold_left f rest first = left_chain f first rest.
Proof.
  unfold left_chain. induction rest as [|x rest IH] using rev_ind; [reflexivity|].
  rewrite fold_left_app, rev_app_distr. simpl. now rewrite IH.
Qed.

Lemma left_chain_snoc {A} (f : A -> A -> A) (first : A) (rest : list A) (x : A) :
  left_chain f first (rest ++ [x])%list = f (left_chain f first rest) x.
Proof. unfold left_chain. rewrite rev_app_distr. reflexivity. Qed.

Lemma chain_text_snoc (op s : string) (ss : list string) (r : string) :
  chain_text op ((s :: ss) ++ [r])%list = parenthesized op (chain_text op (s :: ss)) r.
Proof. simpl. apply left_chain_snoc. Qed.

Lemma serializeExpr_Binary (op : string) (l r : SqlExpr) :
  serializeExpr (Binary op l r)
  = (a ← serializeExpr l; b ← serializeExpr r; Normal (parenthesized op a b)).
Proof. reflexivity. Qed.

(** Rendering a chain renders its operands from left to right -- the
    first one that throws aborts -- and nests their texts to the left. *)
Lemma serialize_left_chain (op : string) (e : SqlExpr) (rest : list SqlExpr) :
  serializeExpr (left_chain (Binary op) e rest)
  = (ss ← mapC serializeExpr (e :: rest); Normal (chain_text op ss)).
Proof.
  induction rest as [|x rest IH] using rev_ind.
  - simpl. unfold left_chain; simpl. destruct (serializeExpr e); reflexivity.
  - rewrite left_chain_snoc, serializeExpr_Binary, IH.
    change (e :: rest ++ [x])%list with ((e :: rest) ++ [x])%list.
    rewrite mapC_app.
    pose proof (mapC_cons_nonempty serializeExpr e rest) as Hne.
    destruct (mapC serializeExpr (e :: rest)) as [[|s ss]|err]; [congruence| |reflexivity].
    cbn [mapC]. rewrite !bind_Normal.
    destruct (serializeExpr x) as [r|err]; [|reflexivity].
    rewrite !bind_Normal. now rewrite chain_text_snoc.
Qed.

Example and_three_operands :
  (r ← Combinators.and [Raw "a"; Raw "b"; Raw "c"]; serializeExpr r)
  = Normal "((a AND b) AND c)".
Proof. reflexivity. Qed.

Example chain_text_four :
  chain_text "OR" ["p"; "q"; "r"; "s"] = "(((p OR q) OR r) OR s)".
Proof. reflexivity. Qed.

(** C2: [and] and [or] throw their argument-count error on no
    argument, return a single argument unchanged, and fold two or more
    into the left-associative binary chain; serializing that chain
    gives (((e1 AND e2) AND e3) ...) over the operands' own texts,
    every level in parentheses (and throws what the first failing
    operand throws): two operands that render as t1 and t2 give
    "(t1 AND t2)", and one more operand that renders as t, added to a
    chain that renders as T, gives "(T AND t)". *)
Theorem and_or_left_chain :
  (Combinators.and [] = Throw (JsError "and() requires at least one expression")
   /\ Combinators.or [] = Throw (JsError "or() requires at least one expression"))
  /\ (forall e : SqlExpr,
        Combinators.and [e] = Normal e /\ Combinators.or [e] = Normal e)
  /\ (forall (e1 e2 : SqlExpr) (rest : list SqlExpr),
        Combinators.and (e1 :: e2 :: rest)
        = Normal (left_chain (Binary "AND") e1 (e2 :: rest))
        /\ Combinators.or (e1 :: e2 :: rest)
           = Normal (left_chain (Binary "OR") e1 (e2 :: rest)))
  /\ (forall (e1 e2 : SqlExpr) (rest : list SqlExpr),
        (r ← Combinators.and (e1 :: e2 :: rest); serializeExpr r)
        = (ss ← mapC serializeExpr (e1 :: e2 :: rest); Normal (chain_text "AND" ss))
        /\ (r ← Combinators.or (e1 :: e2 :: rest); serializeExpr r)
           = (ss ← mapC serializeExpr (e1 :: e2 :: rest); Normal (chain_text "OR" ss)))
  /\ (forall (e1 e2 : SqlExpr) (t1 t2 : string),
        serializeExpr e1 = Normal t1 ->
        serializeExpr e2 = Normal t2 ->
        (r ← Combinators.and [e1; e2]; serializeExpr r)
        = Normal ("(" ++ t1 ++ " AND " ++ t2 ++ ")")
        /\ (r ← Combinators.or [e1; e2]; serializeExpr r)
           = Normal ("(" ++ t1 ++ " OR " ++ t2 ++ ")"))
  /\ (forall (e1 e2 : SqlExpr) (rest : list SqlExpr) (e : SqlExpr) (chain t : string),
        serializeExpr e = Normal t ->
        ((r ← Combinators.and (e1 :: e2 :: rest); serializeExpr r) = Normal chain ->
         (r ← Combinators.and (e1 :: e2 :: rest ++ [e]); serializeExpr r)
         = Normal ("(" ++ chain ++ " AND " ++ t ++ ")"))
        /\ ((r ← Combinators.or (e1 :: e2 :: rest); serializeExpr r) = Normal chain ->
            (r ← Combinators.or (e1 :: e2 :: rest ++ [e]); serializeExpr r)
            = Normal ("(" ++ chain ++ " OR " ++ t ++ ")")))
  /\ (forall sql : string, serializeExpr (Raw sql) = Normal sql).
Proof.
  assert (Hchain : forall op e1 e2 rest,
             serializeExpr (fold_left (fun acc expr => Binary op acc expr) (e2 :: rest) e1)
             = (ss ← mapC serializeExpr (e1 :: e2 :: rest); Normal (chain_text op ss))).
  { intros op e1 e2 rest. rewrite fold_left_left_chain. apply serialize_left_chain. }
  assert (Hsnoc : forall op e1 e2 rest e chain t,
             serializeExpr e = Normal t ->
             serializeExpr (fold_left (fun acc expr => Binary op acc expr) (e2 :: rest) e1)
             = Normal chain ->
             serializeExpr (fold_left (fun acc expr => Binary op acc expr)
                                      (e2 :: rest ++ [e]) e1)
             = Normal ("(" ++ chain ++ " " ++ op ++ " " ++ t ++ ")")).
  { intros op e1 e2 rest e chain t He Hc.
    change (e2 :: rest ++ [e])%list with ((e2 :: rest) ++ [e])%list.
    rewrite fold_left_app. cbn [fold_left] in Hc |- *.
    rewrite serializeExpr_Binary, Hc, He. reflexivity. }
  split; [split; reflexivity|].
  split; [intros e; split; reflexivity|].
  split; [|split; [|split; [|split]]].
  - intros e1 e2 rest. unfold Combinators.and, Combinators.or, Combinators.reduce.
    rewrite !fold_left_left_chain. split; reflexivity.
  - intros e1 e2 rest. unfold Combinators.and, Combinators.or, Combinators.reduce.
    rewrite !bind_Normal, !Hchain. split; reflexivity.
  - intros e1 e2 t1 t2 H1 H2. cbn. rewrite H1, H2. split; reflexivity.
  - intros e1 e2 rest e chain t He.
    unfold Combinators.and, Combinators.or, Combinators.reduce.
    change (e1 :: e2 :: rest ++ [e])%list with (e1 :: (e2 :: rest ++ [e]))%list.
    cbn [app]. rewrite !bind_Normal.
    split; intros Hc; apply (Hsnoc _ _ _ _ _ _ _ He Hc).
  - reflexivity.
Qed.

(** Three operands that render as themselves. *)
Lemma and_or_left_chain_witness :
  (r ← Combinators.and [Raw "a"; Raw "b"; Raw "c"]; serializeExpr r)
  = Normal "((a AND b) AND c)"
  /\ (r ← Combinators.or [Raw "a"; Raw "b"; Raw "c"]; serializeExpr r)
     = Normal "((a OR b) OR c)".
Proof.
  destruct and_or_left_chain as (_ & _ & _ & _ & Hpair & Hmore & Hraw).
  destruct (Hpair (Raw "a") (Raw "b") "a" "b" (Hraw "a") (Hraw "b")) as [Hand Hor].
  destruct (Hmore (Raw "a") (Raw "b") [] (Raw "c") "(a AND b)" "c" (Hraw "c")) as [Hand3 _].
  destruct (Hmore (Raw "a") (Raw "b") [] (Raw "c") "(a OR b)" "c" (Hraw "c")) as [_ Hor3].
  split; [exact (Hand3 Hand)|exact (Hor3 Hor)].
Defined.

(** ** Wide integers: literal text and back *)

















Lemma read_body_doubled (q : ascii) (s : string) :
  read_body q (replace_all q (String q (String q "")) s ++ String q "") = Some s.
Proof.
  induction s as [|c s IH].
  - change (read_body q (String q "") = Some ""). cbn [read_body].
    now rewrite Ascii.eqb_refl.
  - cbn [replace_all]. destruct (Ascii.eqb c q) eqn:Hc.
    + change (read_body q (String q (String q
               (replace_all q (String q (String q "")) s ++ String q "")))
              = Some (String c s)).
      cbn [read_body]. rewrite !Ascii.eqb_refl, IH.
      apply Ascii.eqb_eq in Hc. now subst c.
    + change (read_body q (String c
               (replace_all q (String q (String q "")) s ++ String q ""))
              = Some (String c s)).
      cbn [read_body]. rewrite Hc, IH. reflexivity.
Qed.

Lemma read_delimited_doubled (q : ascii) (s : string) :
  read_delimited q (str1 q ++ replace_all q (str1 q ++ str1 q) s ++ str1 q) = Some s.
Proof.
  change (read_delimited q
            (String q (replace_all q (String q (String q "")) s ++ String q ""))
          = Some s).
  cbn [read_delimited]. rewrite Ascii.eqb_refl. apply read_body_doubled.
Qed.

(** The type name is compared in upper case, and the upper case of the
    ligature fl is the two letters FL. *)
Example coerceValue_type_case :
  coerceValue date_stub number_stub base64_stub (VString "7") "Long" = Normal (VBigInt 7)
  /\ toUpperCase (String (ascii_of_nat 239) (String (ascii_of_nat 172)
                     (String (ascii_of_nat 130) "oat"))) = "FLOAT"
  /\ toUpperCase "timestamp_ns" = "TIMESTAMP_NS".
Proof. repeat split; vm_compute; reflexivity. Qed.

(** Text the engine pads with a no-break space, and a number too large
    to print in plain decimal: 1e23 is the double 99999999999999991611392. *)
Example BigInt_accepts :
  StringToBigInt (String (ascii_of_nat 194) (String (ascii_of_nat 160) "42 ")) = Some 42
  /\ BigInt_of_number (NReal "1e+21") = Normal (VBigInt 1000000000000000000000)
  /\ BigInt_of_number (NReal "1e+23") = Normal (VBigInt 99999999999999991611392)
  /\ BigInt_of_number (NReal "-1.5e+22") = Normal (VBigInt (-15000000000000000000000))
  /\ BigInt_of_number (NReal "48.7") = Throw JsRangeError
  /\ BigInt_of_number (NReal "NaN") = Throw JsRangeError.
Proof. repeat split; vm_compute; reflexivity. Qed.

Example long_max_round_trip :
  formatValue (VBigInt 9223372036854775807) long = Normal "9223372036854775807"
  /\ coerceValue date_stub number_stub base64_stub (VString "9223372036854775807") "LONG"
     = Normal (VBigInt 9223372036854775807).
Proof. split; reflexivity. Qed.

(** A long256 given as hexadecimal text: the literal is that text
    between quotes, and the text decodes to the integer it denotes. *)
Example long256_hex_round_trip :
  formatValue (VString "0xff") long256 = Normal "'0xff'"
  /\ read_delimited squote "'0xff'" = Some "0xff"
  /\ coerceValue date_stub number_stub base64_stub (VString "0xff") "LONG256"
     = Normal (VBigInt 255).
Proof. repeat split; reflexivity. Qed.


(** ** The Insert builder *)

(** A key enters [allKeys] only from a row that gives it a value. *)
Lemma add_keys_elem (row : Row) (key : string) (ks : list string) (acc : gset string) :
  key ∈ InsertBuilder.add_keys row ks acc ->
  key ∈ acc \/ InsertBuilder.is_undefined (InsertBuilder.get row key) = false.
Proof.
  unfold InsertBuilder.add_keys.
  revert acc. induction ks as [|k ks IH]; intros acc H; simpl in H; [now left|].
  apply IH in H as [H|H]; [|now right].
  destruct (InsertBuilder.is_undefined (InsertBuilder.get row k)) eqn:Hk; [now left|].
  apply elem_of_union in H as [H|H]; [|now left].
  apply elem_of_singleton in H. subst. now right.
Qed.

Lemma allKeys_from (rows : list Row) (key : string) (acc : gset string) :
  key ∈ fold_left (fun acc row => InsertBuilder.add_keys row (InsertBuilder.keys row) acc)
                  rows acc ->
  key ∈ acc
  \/ exists row, In row rows
                 /\ InsertBuilder.is_undefined (InsertBuilder.get row key) = false.
Proof.
  revert acc. induction rows as [|row rows IH]; intros acc H; simpl in H; [now left|].
  apply IH in H as [H|(r & Hr & Hu)].
  - apply add_keys_elem in H as [H|H]; [now left|].
    right. exists row. split; [now left|assumption].
  - right. exists r. split; [now right|assumption].
Qed.

Lemma allKeys_elem (rows : list Row) (key : string) :
  key ∈ InsertBuilder.allKeys rows ->
  exists row, In row rows
              /\ InsertBuilder.is_undefined (InsertBuilder.get row key) = false.
Proof.
  intros H. apply allKeys_from in H as [H|H]; [|assumption].
  now apply not_elem_of_empty in H.
Qed.

Lemma omitted_not_in_allKeys (rows : list Row) (d : string) :
  (forall row, In row rows -> InsertBuilder.get row d = VUndefined) ->
  InsertBuilder.has (InsertBuilder.allKeys rows) d = false.
Proof.
  intros Hom. unfold InsertBuilder.has. apply bool_decide_eq_false. intros Hin.
  apply allKeys_elem in Hin as (row & Hrow & Hu).
  rewrite (Hom row Hrow) in Hu. discriminate.
Qed.

(** The column toSQL injects now() for is the one findDesignatedColumn
    finds, as soon as no row gives it a value. *)
Lemma designatedCol_first (cols : list (string * QColumn)) (seen : gset string)
      (d : string) :
  findDesignatedColumn cols = Some d ->
  InsertBuilder.has seen d = false ->
  InsertBuilder.designatedCol cols seen = Some d.
Proof.
  intros Hf Hs. induction cols as [|[name col] cols IH]; simpl in *; [discriminate|].
  destruct (is_designated col); simpl.
  - injection Hf as ->. now rewrite Hs.
  - now apply IH.
Qed.

Lemma findDesignatedColumn_In (cols : list (string * QColumn)) (d : string) :
  findDesignatedColumn cols = Some d -> exists col, In (d, col) cols.
Proof.
  induction cols as [|[name col] cols IH]; simpl; [discriminate|].
  destruct (is_designated col).
  - intros [= ->]. exists col. now left.
  - intros H. destruct (IH H) as [c Hc]. exists c. now right.
Qed.

Lemma is_col_refl (d : string) : InsertBuilder.is_col d (Some d) = true.
Proof. apply String.eqb_refl. Qed.

Lemma cell_value_omitted (row : Row) (d : string) :
  InsertBuilder.get row d = VUndefined ->
  InsertBuilder.cell_value (Some d) row d = InsertBuilder.now_token.
Proof. intros H. unfold InsertBuilder.cell_value. now rewrite is_col_refl, H. Qed.

Lemma serializeCell_now (types : list QuestDBType) (i : nat) :
  serializeCell types i InsertBuilder.now_token = Normal (VString "now()").
Proof. reflexivity. Qed.

Lemma lookup_map {A B} (f : A -> B) (l : list A) (i : nat) :
  List.map f l !! i = option_map f (l !! i).
Proof.
  revert i. induction l as [|x l IH]; intros [|i]; simpl; try reflexivity. apply IH.
Qed.

(** A row that renders has one cell per value, each the rendering of
    the value at the same position. *)
Lemma serializeCells_lookup (types : list QuestDBType) (i : nat) (row : list JsValue)
      (cells : list JsValue) :
  serializeCells types i row = Normal cells ->
  length cells = length row
  /\ forall (j : nat) (v : JsValue),
       row !! j = Some v ->
       exists c, cells !! j = Some c /\ serializeCell types (i + j) v = Normal c.
Proof.
  revert i cells. induction row as [|val row IH]; intros i cells H; simpl in H.
  - injection H as <-. split; [reflexivity|]. intros j v Hj. discriminate Hj.
  - destruct (serializeCell types i val) as [c|e] eqn:Hc; [|discriminate].
    rewrite bind_Normal in H.
    destruct (serializeCells types (S i) row) as [cs|e] eqn:Hcs; [|discriminate].
    rewrite bind_Normal in H. injection H as <-.
    destruct (IH _ _ Hcs) as [Hlen Hrest]. split; [simpl; now rewrite Hlen|].
    intros [|j] v Hj; simpl in Hj.
    + injection Hj as <-. exists c. split; [reflexivity|]. now rewrite Nat.add_0_r.
    + destruct (Hrest j v Hj) as (c' & Hc' & Hs). exists c'. split; [exact Hc'|].
      now rewrite Nat.add_succ_r.
Qed.

Lemma mapC_Forall2 {A B} (f : A -> Completion B) (l : list A) (l' : list B) :
  mapC f l = Normal l' -> Forall2 (fun x y => f x = Normal y) l l'.
Proof.
  revert l'. induction l as [|x l IH]; intros l' H; simpl in H.
  - injection H as <-. constructor.
  - destruct (f x) as [y|e] eqn:Hy; [|discriminate]. rewrite bind_Normal in H.
    destruct (mapC f l) as [ys|e]; [|discriminate]. rewrite bind_Normal in H.
    injection H as <-. constructor; [assumption|now apply IH].
Qed.

(** The text of a row is the join of the texts of its cells. *)
Lemma serializeRow_Normal (types : list QuestDBType) (row : list JsValue) (text : string) :
  serializeRow types row = Normal text ->
  exists (cells : list JsValue) (texts : list string),
    serializeCells types 0 row = Normal cells
    /\ Forall2 (fun c t => join_item c = Normal t) cells texts
    /\ text = join ", " texts.
Proof.
  unfold serializeRow. destruct (serializeCells types 0 row) as [cells|e]; [|discriminate].
  rewrite bind_Normal. destruct (mapC join_item cells) as [texts|e] eqn:Hj; [|discriminate].
  rewrite bind_Normal. intros [= <-]. exists cells, texts.
  repeat split. now apply mapC_Forall2.
Qed.

Lemma serializeInsert_Normal (node : InsertNode) (sql : string) :
  serializeInsert node = Normal sql ->
  exists valueRows,
    Forall2 (fun row text => serializeRow (ins_columnTypes node) row = Normal text)
            (ins_values node) valueRows
    /\ sql = insert_text (ins_table node) (ins_columns node) valueRows.
Proof.
  unfold serializeInsert. destruct (ins_values node) as [|r rs]; [discriminate|].
  destruct (mapC _ (r :: rs)) as [valueRows|e] eqn:Hm; [|discriminate].
  rewrite bind_Normal. intros [= <-]. exists valueRows.
  split; [now apply mapC_Forall2|reflexivity].
Qed.

(** The rows of a statement that renders, cell text by cell text. *)
Lemma rendered_rows (types : list QuestDBType) (rows : list (list JsValue))
      (valueRows : list string) :
  Forall2 (fun row text => serializeRow types row = Normal text) rows valueRows ->
  exists cellRows : list (list string),
    valueRows = List.map (join ", ") cellRows
    /\ Forall2 (fun row texts =>
                  exists cells, serializeCells types 0 row = Normal cells
                                /\ Forall2 (fun c t => join_item c = Normal t) cells texts)
               rows cellRows.
Proof.
  induction 1 as [|row text rows valueRows Hrow _ (cellRows & -> & IH)].
  - exists []. split; [reflexivity|constructor].
  - apply serializeRow_Normal in Hrow as (cells & texts & Hcells & Htexts & ->).
    exists (texts :: cellRows). split; [reflexivity|].
    constructor; [|exact IH]. now exists cells.
Qed.

(** C8 fails on the code for a designated column named like a member
    of Object.prototype.  The row below does not have the key
    [toString], yet [row["toString"]] is not undefined but the
    function every object inherits: toSQL puts the text of that
    function, as a quoted literal, where now() belongs. *)
Theorem insert_inherited_name_is_not_now :
  findDesignatedColumn (def_columns inherited_name_table) = Some "toString"
  /\ Forall (fun row : Row => row !! "toString" = None) (_rows inherited_name_insert)
  /\ InsertBuilder.toSQL inherited_name_insert
     = Normal (join nl [ "INSERT INTO events";
                         "(toString, v)";
                         "VALUES";
                         "('" ++ builtin_text "toString" ++ "', 1)" ])
  /\ InsertBuilder.toSQL inherited_name_insert
     <> Normal (join nl [ "INSERT INTO events"; "(toString, v)"; "VALUES"; "(now(), 1)" ]).
Proof.
  split; [reflexivity|]. split; [repeat constructor|].
  split; [vm_compute; reflexivity|]. vm_compute. discriminate.
Qed.

(** X26: when the table has a designated timestamp column d (the one
    findDesignatedColumn finds: the first, and in a well-formed
    definition the only, column marked designated) and [row[d]] is
    undefined for every row of a non-empty row set, the INSERT node
    lists d among its columns, every row carries the raw now()
    fragment at d's position, and any SQL text toSQL returns is the
    four-line INSERT statement -- table, column list, VALUES, one
    parenthesized row per line -- whose rows all have the bare text
    now() in that position. *)
Theorem insert_injects_now (b : InsertBuilder) (d : string) :
  findDesignatedColumn (def_columns (i_def b)) = Some d ->
  _rows b <> [] ->
  (forall row, In row (_rows b) -> InsertBuilder.get row d = VUndefined) ->
  In d (ins_columns (InsertBuilder.insertNode b))
  /\ (forall i : nat,
        ins_columns (InsertBuilder.insertNode b) !! i = Some d ->
        Forall (fun row => row !! i = Some InsertBuilder.now_token)
               (ins_values (InsertBuilder.insertNode b)))
  /\ (forall sql : string,
        InsertBuilder.toSQL b = Normal sql ->
        exists cellRows : list (list string),
          sql = join nl
                  [ "INSERT INTO " ++ escapeIdentifier (name (i_def b));
                    "(" ++ join ", " (List.map escapeIdentifier
                                               (ins_columns (InsertBuilder.insertNode b)))
                    ++ ")";
                    "VALUES";
                    join ("," ++ nl)
                         (List.map (fun cells => "(" ++ join ", " cells ++ ")") cellRows) ]
          /\ length cellRows = length (_rows b)
          /\ forall i : nat,
               ins_columns (InsertBuilder.insertNode b) !! i = Some d ->
               Forall (fun cells => cells !! i = Some "now()") cellRows).
Proof.
  intros Hd Hne Hom.
  pose proof (omitted_not_in_allKeys _ _ Hom) as Hseen.
  pose proof (designatedCol_first _ _ _ Hd Hseen) as Hdc.
  assert (Hvals : forall i, ins_columns (InsertBuilder.insertNode b) !! i = Some d ->
            Forall (fun row => row !! i = Some InsertBuilder.now_token)
                   (ins_values (InsertBuilder.insertNode b))).
  { intros i Hi. unfold InsertBuilder.insertNode in *. cbn [ins_values ins_columns] in *.
    rewrite Hdc in *. apply List.Forall_forall. intros cells Hin.
    apply in_map_iff in Hin as (row & <- & Hrow).
    rewrite lookup_map, Hi. simpl. f_equal. apply cell_value_omitted. now apply Hom. }
  split; [|split].
  - destruct (findDesignatedColumn_In _ _ Hd) as [col Hcol].
    unfold InsertBuilder.insertNode. cbn [ins_columns]. rewrite Hdc.
    apply in_map_iff. exists (d, col). split; [reflexivity|].
    apply filter_In. split; [exact Hcol|].
    cbn [fst]. rewrite is_col_refl. apply orb_true_r.
  - exact Hvals.
  - intros sql Hsql. unfold InsertBuilder.toSQL in Hsql.
    apply serializeInsert_Normal in Hsql as (valueRows & Hrows & ->).
    apply rendered_rows in Hrows as (cellRows & -> & Hrows).
    exists cellRows. split; [|split].
    + unfold insert_text. rewrite List.map_map. reflexivity.
    + rewrite <- (Forall2_length _ _ _ Hrows).
      unfold InsertBuilder.insertNode. cbn [ins_values]. apply length_map.
    + intros i Hi. specialize (Hvals i Hi).
      induction Hrows as [|vals texts vs ts (cells & Hcells & Htexts) _ IH]; [constructor|].
      apply Forall_cons in Hvals as [Hv Hvs]. constructor; [|now apply IH].
      apply serializeCells_lookup in Hcells as [_ Hcells].
      destruct (Hcells i InsertBuilder.now_token Hv) as (c & Hc & Hser).
      rewrite serializeCell_now in Hser. injection Hser as <-.
      destruct (Forall2_lookup_l _ _ _ _ _ Htexts Hc) as (t & Ht & Hjoin).
      cbn in Hjoin. now injection Hjoin as <-.
Qed.

(** The repository's own case: the designated [ts] is omitted and the
    statement carries the bare token -- a literal of the same text
    would have been quoted. *)
Example solar_insert_sql :
  InsertBuilder.toSQL solar_insert
  = Normal ("INSERT INTO energy_readings" ++ nl ++ "(ts, source, power_kw)" ++ nl
            ++ "VALUES" ++ nl ++ "(now(), 'solar', 48.7)")
  /\ formatValue (VString "now()") timestamp = Normal "'now()'".
Proof. split; vm_compute; reflexivity. Qed.

Lemma insert_injects_now_witness :
  exists cellRows : list (list string),
    "INSERT INTO energy_readings" ++ nl ++ "(ts, source, power_kw)" ++ nl
    ++ "VALUES" ++ nl ++ "(now(), 'solar', 48.7)"
    = join nl [ "INSERT INTO energy_readings";
                "(ts, source, power_kw)";
                "VALUES";
                join ("," ++ nl)
                     (List.map (fun cells => "(" ++ join ", " cells ++ ")") cellRows) ]
    /\ length cellRows = 1%nat
    /\ Forall (fun cells => cells !! 0%nat = Some "now()") cellRows.
Proof.
  assert (Hd : findDesignatedColumn (def_columns (i_def solar_insert)) = Some "ts")
    by reflexivity.
  assert (Hne : _rows solar_insert <> []) by discriminate.
  assert (Hom : forall row, In row (_rows solar_insert) ->
                            InsertBuilder.get row "ts" = VUndefined).
  { intros row [<-|[]]. vm_compute. reflexivity. }
  destruct (insert_injects_now solar_insert "ts" Hd Hne Hom) as (_ & _ & Htext).
  destruct (Htext _ (proj1 solar_insert_sql)) as (cellRows & Hsql & Hlen & Hnow).
  exists cellRows. split; [exact Hsql|]. split; [exact Hlen|].
  apply Hnow. reflexivity.
Defined.

(** *** execute on a builder without rows *)

(** Tells a bind over a throwing step apart from the "at least one
    row" error. *)
Ltac bind_throws := rewrite bind_Throw; intros [= ->]; congruence.

Lemma mapC_Throw {A B} (f : A -> Completion B) (l : list A) (e : Exn) :
  mapC f l = Throw e -> exists x, In x l /\ f x = Throw e.
Proof.
  induction l as [|x l IH]; simpl; [discriminate|].
  destruct (f x) as [y|e'] eqn:Hx.
  - rewrite bind_Normal. destruct (mapC f l) as [ys|e'']; [discriminate|].
    rewrite bind_Throw. intros [= ->]. destruct (IH eq_refl) as (x' & Hin & Hx').
    exists x'. split; [now right|exact Hx'].
  - rewrite bind_Throw. intros [= ->]. exists x. split; [now left|exact Hx].
Qed.

(** Induction over values, through the items of arrays. *)
Lemma JsValue_items_ind (P : JsValue -> Prop) :
  (forall v, match v with VArray items => Forall P items | _ => True end -> P v) ->
  forall v, P v.
Proof.
  intros H. fix IH 1. intros v. apply H. destruct v; try exact I.
  induction items as [|x items IHitems]; constructor; [apply IH|exact IHitems].
Qed.

(** The conversion of an object to a primitive raises nothing but the
    host's type error and, on a toString that is toLocaleString, its
    range error. *)
Lemma object_String_throws (inherits : bool) (props : list (string * JsValue)) (e : Exn) :
  object_String inherits props = Throw e -> e = JsTypeError \/ e = JsRangeError.
Proof.
  unfold object_String, call_member, invoke_toString, call_builtin.
  repeat case_match; cbn; intros Hthrow; try discriminate Hthrow;
    injection Hthrow as <-; auto.
Qed.

Lemma js_String_throws (v : JsValue) (e : Exn) :
  js_String v = Throw e -> e = JsTypeError \/ e = JsRangeError.
Proof.
  revert e. induction v as [v IH] using JsValue_items_ind. intros e.
  destruct v; cbn [js_String]; try discriminate.
  - destruct (mapC _ items) as [texts|e'] eqn:Hm; [discriminate|].
    rewrite bind_Throw. intros [= ->].
    apply mapC_Throw in Hm as (x & Hin & Hx).
    rewrite List.Forall_forall in IH. specialize (IH x Hin e).
    destruct x; try discriminate Hx; exact (IH Hx).
  - apply object_String_throws.
  - apply object_String_throws.
Qed.

Lemma join_item_throws (v : JsValue) (e : Exn) :
  join_item v = Throw e -> e = JsTypeError \/ e = JsRangeError.
Proof. destruct v; cbn [join_item]; try discriminate; apply js_String_throws. Qed.

(** A step that throws only the host's type and range errors, followed
    by steps that return, never throws a given error of the library. *)
Ltac host_error_only :=
  match goal with
  | |- context [js_String ?v] =>
      let H := fresh "H" in
      pose proof (js_String_throws v) as H;
      destruct (js_String v); cbn;
      [discriminate|intros [= ->]; destruct (H _ eq_refl); discriminate]
  end.

Lemma formatValue_never_no_rows (v : JsValue) (t : QuestDBType) :
  formatValue v t <> Throw no_rows.
Proof.
  unfold no_rows. destruct v, t; cbn [formatValue truthy typeof]; unfold quoted;
    try discriminate;
    try match goal with
        | |- context [date_iso ?d] => destruct (date_iso d); discriminate
        end;
    host_error_only.
Qed.

Lemma serializeCell_never_no_rows (types : list QuestDBType) (i : nat) (v : JsValue) :
  serializeCell types i v <> Throw no_rows.
Proof.
  unfold serializeCell. destruct (rawSQL_of v); [discriminate|].
  pose proof (formatValue_never_no_rows v (nth i types varchar)) as H.
  destruct (formatValue v (nth i types varchar)); [discriminate|].
  rewrite bind_Throw. congruence.
Qed.

Lemma serializeCells_never_no_rows (types : list QuestDBType) (i : nat)
      (row : list JsValue) :
  serializeCells types i row <> Throw no_rows.
Proof.
  revert i. induction row as [|v row IH]; intros i; simpl; [discriminate|].
  pose proof (serializeCell_never_no_rows types i v) as Hc.
  destruct (serializeCell types i v) as [c|e]; [|bind_throws].
  rewrite bind_Normal. specialize (IH (S i)).
  destruct (serializeCells types (S i) row); [discriminate|bind_throws].
Qed.

Lemma mapC_never {A B} (f : A -> Completion B) (e : Exn) (l : list A) :
  (forall x, f x <> Throw e) -> mapC f l <> Throw e.
Proof.
  intros Hf. induction l as [|x l IH]; simpl; [discriminate|].
  pose proof (Hf x) as Hx. destruct (f x); [|bind_throws].
  rewrite bind_Normal. destruct (mapC f l); [discriminate|bind_throws].
Qed.

Lemma serializeRow_never_no_rows (types : list QuestDBType) (row : list JsValue) :
  serializeRow types row <> Throw no_rows.
Proof.
  unfold serializeRow.
  pose proof (serializeCells_never_no_rows types 0 row) as Hc.
  destruct (serializeCells types 0 row) as [cells|e]; [|bind_throws].
  rewrite bind_Normal.
  assert (Hj : mapC join_item cells <> Throw no_rows).
  { apply mapC_never. intros x Hx. apply join_item_throws in Hx as [Hx|Hx]; discriminate Hx. }
  destruct (mapC join_item cells); [discriminate|bind_throws].
Qed.

(** toSQL raises the "at least one row" error exactly on a builder
    without rows: with a row, the matrix handed to the serializer is
    not empty and no formatter error is that one. *)
Lemma toSQL_no_rows_iff (b : InsertBuilder) :
  InsertBuilder.toSQL b = Throw no_rows <-> _rows b = [].
Proof.
  unfold InsertBuilder.toSQL, serializeInsert, InsertBuilder.insertNode.
  cbn [ins_values ins_columnTypes].
  destruct (_rows b) as [|r rs]; [split; reflexivity|].
  split; [|discriminate]. cbn [List.map].
  match goal with
  | |- context [mapC ?f ?l] =>
      pose proof (mapC_never f no_rows l (serializeRow_never_no_rows _)) as Hm;
      destruct (mapC f l)
  end; [discriminate|bind_throws].
Qed.

(** C10: with no accumulated row, execute resolves to a count of 0 and
    leaves the log of statements handed to the transport as it was,
    although toSQL on the same builder would throw; execute never
    completes with the "at least one row" error, which toSQL raises
    exactly when the builder has no row. *)
Theorem execute_without_rows (b : InsertBuilder) (sent : list string) :
  (_rows b = [] ->
   InsertBuilder.execute b sent = (Normal 0%nat, sent)
   /\ InsertBuilder.toSQL b = Throw no_rows)
  /\ fst (InsertBuilder.execute b sent) <> Throw no_rows
  /\ (InsertBuilder.toSQL b = Throw no_rows <-> _rows b = []).
Proof.
  split; [|split].
  - intros Hrows. split; [|now apply toSQL_no_rows_iff].
    unfold InsertBuilder.execute. now rewrite Hrows.
  - unfold InsertBuilder.execute.
    destruct (_rows b) as [|r rs] eqn:Hrows; [discriminate|].
    destruct (InsertBuilder.toSQL b) as [sql|e] eqn:Hsql.
    + destruct (i_client b sql); discriminate.
    + cbn [fst]. intros [= ->]. apply toSQL_no_rows_iff in Hsql. congruence.
  - apply toSQL_no_rows_iff.
Qed.

Example execute_with_and_without_rows :
  InsertBuilder.execute (InsertBuilder.new idle_client readings) ["SELECT 1"]
  = (Normal 0%nat, ["SELECT 1"])
  /\ InsertBuilder.execute solar_insert []
     = (Normal 1%nat,
        ["INSERT INTO energy_readings" ++ nl ++ "(ts, source, power_kw)" ++ nl
         ++ "VALUES" ++ nl ++ "(now(), 'solar', 48.7)"]).
Proof. split; vm_compute; reflexivity. Qed.

(** ** The Select builder *)

(** Reading [this._node] of a builder whose node is allocated. *)
Lemma node_lookup (b : SelectBuilder) (st : Store) (n : SelectNode) :
  st !! _node b = Some n -> SelectBuilder.node b st = n.
Proof. intros H. unfold SelectBuilder.node. now apply list_lookup_total_correct. Qed.

Lemma present_named (d : string) : d <> "" -> present (Some d) = Some d.
Proof.
  intros H. unfold present. destruct (String.eqb_spec d ""); [contradiction|reflexivity].
Qed.

(** Every chainable method ends in the constructor; this exposes it. *)
Ltac unfold_methods :=
  unfold invoke, returned,
    SelectBuilder.distinct, SelectBuilder.columns, SelectBuilder.addExpr,
    SelectBuilder.where_, SelectBuilder.andWhere, SelectBuilder.whereTimestamp,
    SelectBuilder.sampleBy, SelectBuilder.latestOn,
    SelectBuilder.asofJoin, SelectBuilder.ltJoin, SelectBuilder.spliceJoin,
    SelectBuilder.innerJoin, SelectBuilder.leftJoin, SelectBuilder.crossJoin,
    SelectBuilder.joinWith, SelectBuilder.orderBy, SelectBuilder.limit,
    SelectBuilder.groupBy, SelectBuilder.clone, SelectBuilder.new.

(** A call whose overlay is defined allocates exactly one node, the
    overlay, and returns a builder pointing at it. *)
Lemma invoke_overlaid (c : Call) (b : SelectBuilder) (st : Store) (n n' : SelectNode) :
  st !! _node b = Some n ->
  overlaid c (_def b) n = Some n' ->
  invoke c b st
  = (Normal (mkSelectBuilder (length st) (_client b) (_def b)), (st ++ [n'])%list).
Proof.
  intros Hn Ho. pose proof (node_lookup _ _ _ Hn) as Hnode.
  destruct c; cbn [overlaid] in Ho;
    try (injection Ho as <-; unfold_methods; rewrite ?Hnode; destruct n; reflexivity).
  destruct (findDesignatedColumn (def_columns (_def b))) as [d|] eqn:Hd; [|discriminate].
  destruct (String.eqb_spec d "") as [|Hne]; [discriminate|].
  injection Ho as <-. unfold_methods. rewrite Hd, (present_named d Hne), ?Hnode.
  destruct n; reflexivity.
Qed.

Lemma overlaid_defined (c : Call) (def : TableDef) (n : SelectNode) :
  is_latestOn c = false -> is_Some (overlaid c def n).
Proof. destruct c; intros H; try discriminate H; eexists; reflexivity. Qed.

(** No call writes to the store other than by allocating at its end. *)
Lemma invoke_store_grows (c : Call) (b : SelectBuilder) (st : Store) :
  exists added, snd (invoke c b st) = (st ++ added)%list.
Proof.
  destruct c; try (eexists [_]; reflexivity).
  unfold invoke, SelectBuilder.latestOn.
  destruct (present _); [eexists [_]; reflexivity|].
  exists []. cbn [snd]. now rewrite app_nil_r.
Qed.

Lemma store_keeps (st added : Store) (r : nat) (m : SelectNode) :
  st !! r = Some m -> (st ++ added)%list !! r = Some m.
Proof. intros H. now apply lookup_app_l_Some. Qed.

Lemma store_new (st : Store) (m : SelectNode) : (st ++ [m])%list !! length st = Some m.
Proof. apply list_lookup_middle. reflexivity. Qed.

(** The specification's own example: from one parent, [limit(10)] and
    [orderBy("ts")] give two children; each node shows its own clause
    only and the parent's node shows neither. *)
Example limit_and_orderBy_siblings :
  let '(parent, st0) := readings_select in
  let '(limited, st1) := SelectBuilder.limit parent (NInt 10) None st0 in
  let '(ordered, st2) := SelectBuilder.orderBy parent "ts" None st1 in
  st2 !! _node parent = Some readings_star
  /\ st2 !! _node limited
     = Some (with_limit (Some (mkLimit (NInt 10) None)) readings_star)
  /\ st2 !! _node ordered
     = Some (with_orderBy [mkOrder (Column None "ts") ASC] readings_star).
Proof. repeat split; reflexivity. Qed.

(** C1, as the code has it.  Let b be a builder whose node is n.
    (1) Every chained call whose overlay is defined -- all of them
    except latestOn, and latestOn when the bound table has a named
    designated timestamp column -- returns a builder on the same client
    and table whose node is a new object holding n overlaid with the
    change.  (2) The overlay is defined for every call other than
    latestOn.  (3) Whatever the call, and whether it returns or throws,
    every node object that was in the store is still there unchanged,
    b's own node included.  (4) Two children derived from b one after
    the other each hold n overlaid with their own change only, and b
    still holds n. *)
Theorem select_builder_copy_on_write :
  forall (st : Store) (b : SelectBuilder) (n : SelectNode),
    st !! _node b = Some n ->
    (forall (c : Call) (n' : SelectNode),
        overlaid c (_def b) n = Some n' ->
        exists b' : SelectBuilder,
          invoke c b st = (Normal b', (st ++ [n'])%list)
          /\ _node b' = length st /\ _node b' <> _node b
          /\ _client b' = _client b /\ _def b' = _def b
          /\ (st ++ [n'])%list !! _node b' = Some n'
          /\ (st ++ [n'])%list !! _node b = Some n)
    /\ (forall c : Call, is_latestOn c = false -> is_Some (overlaid c (_def b) n))
    /\ (forall (c : Call) (r : nat) (m : SelectNode),
          st !! r = Some m -> snd (invoke c b st) !! r = Some m)
    /\ (forall (c1 c2 : Call) (n1 n2 : SelectNode),
          overlaid c1 (_def b) n = Some n1 ->
          overlaid c2 (_def b) n = Some n2 ->
          exists (b1 b2 : SelectBuilder) (st1 st2 : Store),
            invoke c1 b st = (Normal b1, st1)
            /\ invoke c2 b st1 = (Normal b2, st2)
            /\ st2 !! _node b = Some n
            /\ st2 !! _node b1 = Some n1
            /\ st2 !! _node b2 = Some n2).
Proof.
  intros st b n Hn.
  pose proof (lookup_lt_Some _ _ _ Hn) as Hlt.
  split; [|split; [|split]].
  - intros c n' Ho. eexists. split; [exact (invoke_overlaid c b st n n' Hn Ho)|].
    cbn [_node _client _def]. repeat split; try reflexivity.
    + lia.
    + apply store_new.
    + now apply store_keeps.
  - intros c Hc. now apply overlaid_defined.
  - intros c r m Hr. destruct (invoke_store_grows c b st) as [added ->].
    now apply store_keeps.
  - intros c1 c2 n1 n2 H1 H2.
    pose proof (invoke_overlaid c1 b st n n1 Hn H1) as E1.
    assert (Hn1 : (st ++ [n1])%list !! _node b = Some n) by now apply store_keeps.
    pose proof (invoke_overlaid c2 b _ n n2 Hn1 H2) as E2.
    do 4 eexists. split; [exact E1|]. split; [exact E2|].
    cbn [_node]. split; [|split].
    + now do 2 apply store_keeps.
    + apply store_keeps, store_new.
    + apply store_new.
Qed.

Lemma select_builder_copy_on_write_witness :
  exists b' : SelectBuilder,
    invoke (CallLimit (NInt 10) None) (fst readings_select) (snd readings_select)
    = (Normal b',
       (snd readings_select
        ++ [with_limit (Some (mkLimit (NInt 10) None)) readings_star])%list)
    /\ snd readings_select !! _node (fst readings_select) = Some readings_star.
Proof.
  destruct (select_builder_copy_on_write
              (snd readings_select) (fst readings_select) readings_star eq_refl)
    as (Hcall & _).
  destruct (Hcall (CallLimit (NInt 10) None) _ eq_refl) as (b' & Hinv & _).
  exists b'. split; [exact Hinv|reflexivity].
Defined.

(** C1 as stated fails for latestOn: on a builder bound to a table
    without a designated timestamp column the call returns no builder
    at all -- it throws, and the store is left as it was. *)
Lemma latestOn_returns_no_builder :
  invoke (CallLatestOn ["label"]) (fst lookup_select) (snd lookup_select)
  = (Throw no_designated, snd lookup_select).
Proof. reflexivity. Qed.

(** ** LATEST ON and the designated timestamp *)

(** Without a designated column the call itself throws: no builder is
    made and nothing is left to fail at render time. *)
Lemma latestOn_without_designated (b : SelectBuilder) (parts : list string) (st : Store) :
  findDesignatedColumn (def_columns (_def b)) = None ->
  SelectBuilder.latestOn b parts st = (Throw no_designated, st).
Proof. intros H. unfold SelectBuilder.latestOn. now rewrite H. Qed.

(** With a designated column of non-empty name, the new node's
    latest-on clause carries that column as its timestamp. *)
Lemma latestOn_with_designated (b : SelectBuilder) (parts : list string) (st : Store)
      (n : SelectNode) (d : string) :
  st !! _node b = Some n ->
  findDesignatedColumn (def_columns (_def b)) = Some d ->
  d <> "" ->
  exists b' : SelectBuilder,
    SelectBuilder.latestOn b parts st
    = (Normal b', (st ++ [with_latestOn (Some (mkLatestOn d parts)) n])%list)
    /\ _node b' = length st.
Proof.
  intros Hn Hd Hne. eexists. split.
  - apply (invoke_overlaid (CallLatestOn parts) b st n _ Hn).
    cbn [overlaid]. rewrite Hd. destruct (String.eqb_spec d ""); [contradiction|reflexivity].
  - reflexivity.
Qed.

(** C9 at the input where the code departs from it: the table has a
    designated timestamp column, findDesignatedColumn finds it, and
    latestOn still throws "requires a designated timestamp column",
    because the column's name is the empty string and the guard tests
    the name for truthiness. *)
Theorem latestOn_unnamed_designated_throws :
  findDesignatedColumn (def_columns unnamed_ts_table) = Some ""
  /\ SelectBuilder.latestOn (fst unnamed_ts_select) ["v"] (snd unnamed_ts_select)
     = (Throw no_designated, snd unnamed_ts_select).
Proof. split; reflexivity. Qed.

(** ** Escaped text reads back *)

(** What String() makes of objects: the tag of a plain object, a type
    error for an object without prototype or with a toString and a
    valueOf that cannot be called, and valueOf's answer when toString
    is not callable but valueOf returns a primitive. *)
Example object_texts :
  js_String (VObject [("a", VNumber (NInt 1))]) = Normal "[object Object]"
  /\ js_String (VBare [("a", VNumber (NInt 1))]) = Throw JsTypeError
  /\ js_String (VObject [("toString", VNumber (NInt 1))]) = Throw JsTypeError
  /\ js_String (VObject [("toString", VNull); ("valueOf", VBuiltin "isPrototypeOf")])
     = Normal "false"
  /\ js_String (VBare [("toString", VBuiltin "toString")]) = Normal "[object Object]"
  /\ js_String (VArray [VNumber (NInt 1); VNull; VArray [VString "a"; VUndefined]])
     = Normal "1,,a,".
Proof. repeat split; vm_compute; reflexivity. Qed.

(** X1: for the string-like column types and any value other than
    null and undefined, formatValue quotes what String(value) gives:
    when String(value) returns a text, the result is a single-quoted
    literal that reads back, under the dialect's quote doubling, as
    exactly that text -- no quote inside the value ends the literal --
    and when String(value) throws, formatValue throws the same. *)
Theorem string_literal_reads_back :
  forall (value : JsValue) (type : QuestDBType),
    is_nullish value = false ->
    string_like type = true ->
    match js_String value with
    | Normal text =>
        exists literal : string,
          formatValue value type = Normal literal
          /\ read_delimited squote literal = Some text
    | Throw e => formatValue value type = Throw e
    end.
Proof.
  intros value type Hv Ht.
  assert (Hq : formatValue value type = quoted value).
  { destruct value; try discriminate Hv; destruct type; try discriminate Ht; reflexivity. }
  rewrite Hq. unfold quoted. destruct (js_String value) as [text|e]; [|reflexivity].
  rewrite bind_Normal. eexists. split; [reflexivity|]. apply read_delimited_doubled.
Qed.

Lemma string_literal_reads_back_witness :
  (exists literal : string,
      formatValue (VString "it's; DROP TABLE t") varchar = Normal literal
      /\ read_delimited squote literal = Some "it's; DROP TABLE t")
  /\ formatValue (VObject [("toString", VNumber (NInt 1))]) varchar = Throw JsTypeError.
Proof.
  split.
  - exact (string_literal_reads_back (VString "it's; DROP TABLE t") varchar eq_refl eq_refl).
  - exact (string_literal_reads_back (VObject [("toString", VNumber (NInt 1))]) varchar
                                     eq_refl eq_refl).
Defined.

(** X2: an escaped identifier reads back as the name it was made from,
    bare or double-quoted, so two different names never escape to the
    same text. *)
Theorem escapeIdentifier_reads_back :
  (forall x : string, read_identifier (escapeIdentifier x) = Some x)
  /\ (forall x y : string, escapeIdentifier x = escapeIdentifier y -> x = y).
Proof.
  assert (H : forall x, read_identifier (escapeIdentifier x) = Some x).
  { intros x. unfold read_identifier. destruct (safe_identifier x) eqn:Hx.
    - rewrite (escapeIdentifier_safe x Hx). now rewrite Hx.
    - rewrite (escapeIdentifier_unsafe x Hx).
      set (body := replace_all dquote (str1 dquote ++ str1 dquote) x ++ str1 dquote).
      change (str1 dquote ++ body) with (String dquote body).
      rewrite quoted_form_needs_quoting. apply read_delimited_doubled. }
  split; [exact H|].
  intros x y Heq. pose proof (H x) as Hx. rewrite Heq, H in Hx. congruence.
Qed.

(** ** The column-expression facade *)

(** The type inferred from a value asks a Date for its ISO form and
    every value it takes for text for its String(). *)
Lemma inferred_literal_returns (value : JsValue) (text : string) :
  is_invalid_date value = false ->
  js_String value = Normal text ->
  exists lit, formatValue value (inferQdbType value) = Normal lit.
Proof.
  intros Hd Hs.
  destruct value; cbn [inferQdbType formatValue truthy]; unfold quoted;
    try rewrite Hs; try rewrite bind_Normal; eauto.
  cbn in Hd. destruct (date_iso d); [eauto|discriminate Hd].
Qed.

Lemma serialize_comparison (op : string) (table : option string) (name : string)
      (value : JsValue) :
  serializeExpr (Binary op (Column table name) (literal_of value))
  = (lit ← formatValue value (inferQdbType value);
     Normal (parenthesized op (column_text table name) lit)).
Proof.
  rewrite serializeExpr_Binary. cbn [serializeExpr]. unfold column_text, literal_of.
  destruct (present table); rewrite bind_Normal; reflexivity.
Qed.

(** X4: the six comparisons of the facade infer the literal's type from
    the value, and the inferred type is never binary or array: whatever
    the value -- null, an array or an object included -- the comparison
    renders as (column op literal), unless the value is an invalid
    Date or one that String(value) throws on. *)
Theorem facade_comparisons_render :
  forall (name : string) (table : option string) (value : JsValue) (text : string),
    is_invalid_date value = false ->
    js_String value = Normal text ->
    let c := buildColumnExpr name table in
    exists lit : string,
      formatValue value (inferQdbType value) = Normal lit
      /\ serializeExpr (ColumnExpr.eq c value)
         = Normal ("(" ++ column_text table name ++ " = " ++ lit ++ ")")
      /\ serializeExpr (ColumnExpr.neq c value)
         = Normal ("(" ++ column_text table name ++ " != " ++ lit ++ ")")
      /\ serializeExpr (ColumnExpr.gt c value)
         = Normal ("(" ++ column_text table name ++ " > " ++ lit ++ ")")
      /\ serializeExpr (ColumnExpr.gte c value)
         = Normal ("(" ++ column_text table name ++ " >= " ++ lit ++ ")")
      /\ serializeExpr (ColumnExpr.lt c value)
         = Normal ("(" ++ column_text table name ++ " < " ++ lit ++ ")")
      /\ serializeExpr (ColumnExpr.lte c value)
         = Normal ("(" ++ column_text table name ++ " <= " ++ lit ++ ")").
Proof.
  intros name table value text Hd Hs c.
  destruct (inferred_literal_returns value text Hd Hs) as [lit Hlit].
  exists lit. split; [exact Hlit|].
  unfold c, buildColumnExpr. cbn [ColumnExpr.eq ColumnExpr.neq ColumnExpr.gt
    ColumnExpr.gte ColumnExpr.lt ColumnExpr.lte].
  rewrite !serialize_comparison, Hlit, !bind_Normal. repeat split; reflexivity.
Qed.

Lemma facade_comparisons_render_witness :
  exists lit : string,
    formatValue (VArray [VNumber (NInt 1); VNumber (NInt 2)]) varchar = Normal lit
    /\ serializeExpr (ColumnExpr.eq (buildColumnExpr "tags" (Some "r"))
                                    (VArray [VNumber (NInt 1); VNumber (NInt 2)]))
       = Normal ("(" ++ column_text (Some "r") "tags" ++ " = " ++ lit ++ ")").
Proof.
  destruct (facade_comparisons_render
              "tags" (Some "r") (VArray [VNumber (NInt 1); VNumber (NInt 2)]) "1,2"
              eq_refl eq_refl)
    as (lit & Hlit & Heq & _).
  exists lit. split; [exact Hlit|exact Heq].
Defined.

(** X5: the membership, range and null tests of the facade are built
    from the bare column name: a facade bound to a join alias renders
    them without the alias, while its comparisons and [ref] carry it.
    An empty [in] list renders as [IN ()] rather than failing. *)
Theorem facade_tests_drop_alias :
  forall (name alias : string) (low high : JsValue) (values : list JsValue),
    alias <> "" ->
    let aliased := buildColumnExpr name (Some alias) in
    let bare := buildColumnExpr name None in
    ColumnExpr.in_ aliased values = ColumnExpr.in_ bare values
    /\ ColumnExpr.between aliased low high = ColumnExpr.between bare low high
    /\ serializeExpr (ColumnExpr.isNull aliased)
       = Normal (escapeIdentifier name ++ " IS NULL")
    /\ serializeExpr (ColumnExpr.isNotNull aliased)
       = Normal (escapeIdentifier name ++ " IS NOT NULL")
    /\ serializeExpr (ColumnExpr.in_ aliased [])
       = Normal (escapeIdentifier name ++ " IN ()")
    /\ serializeExpr (ColumnExpr.ref aliased)
       = Normal (escapeIdentifier alias ++ "." ++ escapeIdentifier name).
Proof.
  intros name alias low high values Halias aliased bare.
  repeat split; try reflexivity.
  cbn. destruct (String.eqb_spec alias ""); [contradiction|reflexivity].
Qed.

Lemma facade_tests_drop_alias_witness :
  serializeExpr (ColumnExpr.isNull (buildColumnExpr "price" (Some "t")))
  = Normal "price IS NULL"
  /\ serializeExpr (ColumnExpr.ref (buildColumnExpr "price" (Some "t")))
     = Normal "t.price".
Proof.
  assert (Hne : "t" <> "") by discriminate.
  destruct (facade_tests_drop_alias "price" "t" VNull VNull [] Hne)
    as (_ & _ & Hnull & _ & _ & Href).
  split; [exact Hnull|exact Href].
Defined.

(** ** Chained calls compose *)

Lemma invoke_undefined (c : Call) (b : SelectBuilder) (st : Store) (n : SelectNode) :
  overlaid c (_def b) n = None -> invoke c b st = (Throw no_designated, st).
Proof.
  destruct c; cbn [overlaid]; try discriminate.
  unfold invoke, SelectBuilder.latestOn, present.
  destruct (findDesignatedColumn (def_columns (_def b))) as [d|]; [|reflexivity].
  destruct (String.eqb d ""); [reflexivity|discriminate].
Qed.

(** A chain of two calls holds the second overlay of the first. *)
Lemma chain2_overlaid (c1 c2 : Call) (b : SelectBuilder) (st : Store) (n : SelectNode) :
  st !! _node b = Some n ->
  chain2 c1 c2 b st
  = match overlaid c1 (_def b) n with
    | Some n1 => overlaid c2 (_def b) n1
    | None => None
    end.
Proof.
  intros Hn. unfold chain2.
  destruct (overlaid c1 (_def b) n) as [n1|] eqn:H1.
  - rewrite (invoke_overlaid c1 b st n n1 Hn H1).
    set (b1 := mkSelectBuilder (length st) (_client b) (_def b)).
    assert (Hn1 : (st ++ [n1])%list !! _node b1 = Some n1) by apply store_new.
    destruct (overlaid c2 (_def b) n1) as [n2|] eqn:H2.
    + rewrite (invoke_overlaid c2 b1 _ n1 n2 Hn1 H2).
      f_equal. apply node_lookup. apply store_new.
    + now rewrite (invoke_undefined c2 b1 _ n1 H2).
  - now rewrite (invoke_undefined c1 b st n H1).
Qed.

Lemma overlaid_commute (c1 c2 : Call) (def : TableDef) (n : SelectNode) :
  clause_of c1 <> clause_of c2 ->
  match overlaid c1 def n with
  | Some n1 => overlaid c2 def n1
  | None => None
  end
  = match overlaid c2 def n with
    | Some n2 => overlaid c1 def n2
    | None => None
    end.
Proof.
  intros Hc. destruct n.
  destruct c1, c2; cbn [clause_of] in Hc; try congruence; cbn [overlaid];
    repeat match goal with
           | |- context [findDesignatedColumn ?cols] =>
               destruct (findDesignatedColumn cols) as [d|]
           | |- context [String.eqb ?d ""] => destruct (String.eqb d "")
           end;
    reflexivity.
Qed.

(** X6: two chained calls that write different keys of the node commute:
    whichever is made first, the chain ends in the same node -- or, when
    one of them is a latestOn that throws, in no node either way. *)
Theorem calls_on_different_clauses_commute :
  forall (st : Store) (b : SelectBuilder) (n : SelectNode) (c1 c2 : Call),
    st !! _node b = Some n ->
    clause_of c1 <> clause_of c2 ->
    chain2 c1 c2 b st = chain2 c2 c1 b st.
Proof.
  intros st b n c1 c2 Hn Hc.
  rewrite (chain2_overlaid c1 c2 b st n Hn), (chain2_overlaid c2 c1 b st n Hn).
  now apply overlaid_commute.
Qed.

Lemma calls_on_different_clauses_commute_witness :
  chain2 (CallLimit (NInt 10) None) (CallOrderBy "ts" (Some DESC))
         (fst readings_select) (snd readings_select)
  = chain2 (CallOrderBy "ts" (Some DESC)) (CallLimit (NInt 10) None)
           (fst readings_select) (snd readings_select).
Proof.
  apply (calls_on_different_clauses_commute _ _ readings_star); [reflexivity|discriminate].
Defined.

(** X7: where, limit, groupBy and columns replace what an earlier call
    of the same kind (or, for columns, an earlier addExpr) put into the
    node: of two chained calls only the second one's argument is left,
    and a second limit without offset drops the first one's offset. *)
Theorem replacing_calls_keep_the_last :
  forall (st : Store) (b : SelectBuilder) (n : SelectNode),
    st !! _node b = Some n ->
    let exprs := buildColumnExprs (_def b) None in
    (forall f g : ColumnExprs -> SqlExpr,
        chain2 (CallWhere f) (CallWhere g) b st = Some (with_where (Some (g exprs)) n)
        /\ chain2 (CallAndWhere f) (CallWhere g) b st
           = Some (with_where (Some (g exprs)) n))
    /\ (forall (c1 c2 : JsNumber) (o1 o2 : option JsNumber),
          chain2 (CallLimit c1 o1) (CallLimit c2 o2) b st
          = Some (with_limit (Some (mkLimit c2 o2)) n))
    /\ (forall g1 g2 : list string,
          chain2 (CallGroupBy g1) (CallGroupBy g2) b st
          = Some (with_groupBy (List.map column_ref g2) n))
    /\ (forall (e : SqlExpr) (a : option string) (cols : list string),
          chain2 (CallAddExpr e a) (CallColumns cols) b st
          = Some (with_columns (List.map (fun c => mkColumn (column_ref c) None) cols) n)).
Proof.
  intros st b n Hn exprs.
  repeat split; intros; rewrite (chain2_overlaid _ _ b st n Hn);
    destruct n; reflexivity.
Qed.

Lemma replacing_calls_keep_the_last_witness :
  chain2 (CallLimit (NInt 10) (Some (NInt 5))) (CallLimit (NInt 1) None)
         (fst readings_select) (snd readings_select)
  = Some (with_limit (Some (mkLimit (NInt 1) None)) readings_star).
Proof.
  destruct (replacing_calls_keep_the_last
              (snd readings_select) (fst readings_select) readings_star eq_refl)
    as (_ & Hlimit & _).
  apply Hlimit.
Defined.

(** X8: andWhere, whereTimestamp, orderBy, addExpr and the joins add to
    what is there: a condition is conjoined to the right of the
    existing one, and order items, projections and joins are appended
    in call order. *)
Theorem accumulating_calls_append :
  forall (st : Store) (b : SelectBuilder) (n : SelectNode),
    st !! _node b = Some n ->
    let exprs := buildColumnExprs (_def b) None in
    (forall f g : ColumnExprs -> SqlExpr,
        chain2 (CallWhere f) (CallAndWhere g) b st
        = Some (with_where (Some (Binary "AND" (f exprs) (g exprs))) n))
    /\ (forall (f : ColumnExprs -> SqlExpr) (column interval : string),
          chain2 (CallWhere f) (CallWhereTimestamp column interval) b st
          = Some (with_where (Some (Binary "AND" (f exprs) (TimestampIn column interval))) n))
    /\ (forall (x y : string) (dx dy : option Direction),
          chain2 (CallOrderBy x dx) (CallOrderBy y dy) b st
          = Some (with_orderBy (n_orderBy n
                                ++ [mkOrder (column_ref x) (default ASC dx);
                                    mkOrder (column_ref y) (default ASC dy)]) n))
    /\ (forall (cols : list string) (e : SqlExpr) (a : option string),
          chain2 (CallColumns cols) (CallAddExpr e a) b st
          = Some (with_columns (List.map (fun c => mkColumn (column_ref c) None) cols
                                ++ [mkColumn e a]) n))
    /\ (forall (r1 r2 : TableDef) (a1 a2 : string) (on1 on2 : SelectBuilder.OnCallback),
          chain2 (CallInnerJoin r1 a1 on1) (CallLeftJoin r2 a2 on2) b st
          = Some (with_joins (n_joins n
                              ++ [join_clause (_def b) INNER r1 a1 (Some on1) None;
                                  join_clause (_def b) LEFT r2 a2 (Some on2) None]) n)).
Proof.
  intros st b n Hn exprs.
  repeat split; intros; rewrite (chain2_overlaid _ _ b st n Hn);
    destruct n; cbn; rewrite <- ?app_assoc; reflexivity.
Qed.

Lemma accumulating_calls_append_witness :
  chain2 (CallOrderBy "source" None) (CallOrderBy "ts" (Some DESC))
         (fst readings_select) (snd readings_select)
  = Some (with_orderBy [mkOrder (column_ref "source") ASC; mkOrder (column_ref "ts") DESC]
                       readings_star).
Proof.
  destruct (accumulating_calls_append
              (snd readings_select) (fst readings_select) readings_star eq_refl)
    as (_ & _ & Horder & _).
  apply (Horder "source" "ts" None (Some DESC)).
Defined.

(** ** The INSERT node *)







Lemma selected_sublist (seen : gset string) (des : option string)
      (cols : list (string * QColumn)) :
  sublist (List.map fst (InsertBuilder.selected seen des cols)) (List.map fst cols).
Proof.
  unfold InsertBuilder.selected.
  induction cols as [|[nm col] cols IH]; simpl; [constructor|].
  destruct (InsertBuilder.has seen nm || InsertBuilder.is_col nm des)%bool; simpl.
  - now apply sublist_skip.
  - now apply sublist_cons.
Qed.

(** X9: the node toSQL hands to the serializer is rectangular and
    follows the table definition: it has one row per accumulated row,
    every row has one value per listed column, the listed columns are
    columns of the definition in the definition's order (a key of a row
    that the definition does not have is dropped), and the type at each
    position is the declared type of the column at that position. *)
Theorem insert_node_shape :
  forall b : InsertBuilder,
    let node := InsertBuilder.insertNode b in
    length (ins_values node) = length (_rows b)
    /\ Forall (fun row => length row = length (ins_columns node)) (ins_values node)
    /\ sublist (ins_columns node) (List.map fst (def_columns (i_def b)))
    /\ (forall (i : nat) (name : string),
          ins_columns node !! i = Some name ->
          exists col : QColumn,
            In (name, col) (def_columns (i_def b))
            /\ ins_columnTypes node !! i = Some (qdbType col)).
Proof.
  intros b node. unfold node, InsertBuilder.insertNode.
  cbn [ins_values ins_columns ins_columnTypes].
  set (seen := InsertBuilder.allKeys (_rows b)).
  set (des := InsertBuilder.designatedCol (def_columns (i_def b)) seen).
  split; [apply length_map|]. split; [|split].
  - apply List.Forall_forall. intros vals Hin.
    apply in_map_iff in Hin as (row & <- & _). now rewrite !length_map.
  - apply selected_sublist.
  - intros i name Hi. rewrite lookup_map in Hi. rewrite lookup_map.
    destruct (InsertBuilder.selected seen des (def_columns (i_def b)) !! i)
      as [[nm col]|] eqn:Hsel; [|discriminate Hi].
    injection Hi as <-. exists col. split; [|reflexivity].
    apply list_elem_of_lookup_2, list_elem_of_In in Hsel.
    unfold InsertBuilder.selected in Hsel. now apply filter_In in Hsel as [Hsel _].
Qed.



Example mixed_insert_sql :
  InsertBuilder.toSQL mixed_insert
  = Normal ("INSERT INTO energy_readings" ++ nl ++ "(ts, source, power_kw)" ++ nl
            ++ "VALUES" ++ nl ++ "(NULL, 'wind', NULL)," ++ nl
            ++ "(NULL, 'solar', 48.7)").
Proof. vm_compute. reflexivity. Qed.

Lemma valuesMany_rows (rows : list Row) (b : InsertBuilder) :
  _rows (InsertBuilder.valuesMany rows b) = (_rows b ++ rows)%list
  /\ i_def (InsertBuilder.valuesMany rows b) = i_def b
  /\ i_client (InsertBuilder.valuesMany rows b) = i_client b.
Proof.
  unfold InsertBuilder.valuesMany. revert b.
  induction rows as [|r rows IH]; intros b; simpl.
  - now rewrite app_nil_r.
  - destruct (IH (InsertBuilder.values r b)) as (Hr & Hd & Hc).
    rewrite Hr, Hd, Hc. cbn. now rewrite <- app_assoc.
Qed.

(** X11: rows accumulate in call order over values and valuesMany, and
    execute on a builder with rows sends the transport exactly one
    statement, the text toSQL returns, resolving to the number of rows
    when the transport accepts it and rejecting with the transport's
    error when it does not. *)
Theorem insert_execute_sends_once :
  forall (b : InsertBuilder) (first : Row) (more : list Row) (sent : list string)
         (sql : string),
    let b' := InsertBuilder.valuesMany more (InsertBuilder.values first b) in
    InsertBuilder.toSQL b' = Normal sql ->
    _rows b' = (_rows b ++ first :: more)%list
    /\ InsertBuilder.execute b' sent
       = match i_client b sql with
         | inl _ => (Normal (length (_rows b) + S (length more))%nat, (sent ++ [sql])%list)
         | inr e => (Throw (Transport e), (sent ++ [sql])%list)
         end.
Proof.
  intros b first more sent sql b' Hsql.
  destruct (valuesMany_rows more (InsertBuilder.values first b)) as (Hrows & _ & Hclient).
  fold b' in Hrows, Hclient. cbn [InsertBuilder.values _rows i_client] in Hrows, Hclient.
  rewrite <- app_assoc in Hrows. split; [exact Hrows|].
  unfold InsertBuilder.execute. rewrite Hsql, Hclient, Hrows.
  destruct (_rows b ++ [first] ++ more)%list eqn:Hl.
  - destruct (_rows b); discriminate Hl.
  - rewrite <- Hl. destruct (i_client b sql); [|reflexivity].
    rewrite length_app. reflexivity.
Qed.

Lemma insert_execute_sends_once_witness :
  InsertBuilder.execute mixed_insert ["SELECT 1"]
  = (Normal 2%nat,
     ["SELECT 1";
      "INSERT INTO energy_readings" ++ nl ++ "(ts, source, power_kw)" ++ nl
      ++ "VALUES" ++ nl ++ "(NULL, 'wind', NULL)," ++ nl ++ "(NULL, 'solar', 48.7)"]).
Proof.
  destruct (insert_execute_sends_once
              (InsertBuilder.new idle_client readings) dated_row [solar_row] ["SELECT 1"]
              _ mixed_insert_sql) as [_ Hexec].
  exact Hexec.
Defined.

(** ** The Update builder *)



Example update_set_types :
  UpdateBuilder.toSQL
    (UpdateBuilder.set [("source", VString "wind"); ("power_kw", VUndefined);
                        ("note", VNumber (NInt 7))]
                       (UpdateBuilder.new idle_client readings))
  = Normal ("UPDATE energy_readings" ++ nl ++ "SET source = 'wind', note = '7'").
Proof. vm_compute. reflexivity. Qed.

(** X13: the Update builder has no guard on an empty SET list: with no
    assignment made, toSQL returns [UPDATE <table>] and a bare [SET ]
    line, and execute hands exactly that text to the transport,
    resolving to the response's updated count, or 0 when the response
    carries none. *)
Theorem update_without_assignments_is_sent :
  forall (client : QuestDBClient) (def : TableDef) (sent : list string),
    let sql := "UPDATE " ++ escapeIdentifier (name def) ++ nl ++ "SET " in
    UpdateBuilder.toSQL (UpdateBuilder.new client def) = Normal sql
    /\ UpdateBuilder.execute (UpdateBuilder.new client def) sent
       = match client sql with
         | inl response =>
             (Normal (default (NInt 0) (resp_updated response)), (sent ++ [sql])%list)
         | inr e => (Throw (Transport e), (sent ++ [sql])%list)
         end.
Proof.
  intros client def sent sql.
  assert (Hsql : UpdateBuilder.toSQL (UpdateBuilder.new client def) = Normal sql)
    by reflexivity.
  split; [exact Hsql|].
  unfold UpdateBuilder.execute. rewrite Hsql. reflexivity.
Qed.

(** ** Decoding a response *)

Section ResultSetFacts.
Variable new_Date : JsValue -> Completion JsValue.
Variable Number_ : JsValue -> Completion JsValue.
Variable bytes_of_base64 : string -> Completion JsValue.

Local Abbreviation coerce := (coerceValue new_Date Number_ bytes_of_base64).
Local Abbreviation cells := (parseCells new_Date Number_ bytes_of_base64).
Local Abbreviation parse := (parseResultSet new_Date Number_ bytes_of_base64).







(** X17: first() runs the query with its limit replaced by LIMIT 1: an
    earlier limit and its offset are not sent.  The statement goes to
    the transport once, the result is the first decoded row or null,
    and the builder's own node is left as it was. *)
Theorem first_replaces_the_limit :
  forall (b : SelectBuilder) (st : Store) (n : SelectNode) (sent : list string)
         (sql : string) (response : QuestDBExecResponse),
    st !! _node b = Some n ->
    SelectBuilder.toSQL (mkSelectBuilder (length st) (_client b) (_def b))
                        (st ++ [with_limit (Some (mkLimit (NInt 1) None)) n])%list
    = Normal sql ->
    _client b sql = inl response ->
    select_first new_Date Number_ bytes_of_base64 b st sent
    = (rows ← parse response; Normal (head rows),
       (sent ++ [sql])%list,
       (st ++ [with_limit (Some (mkLimit (NInt 1) None)) n])%list)
    /\ (st ++ [with_limit (Some (mkLimit (NInt 1) None)) n])%list !! _node b = Some n.
Proof.
  intros b st n sent sql response Hn Hsql Hclient. split; [|now apply store_keeps].
  unfold select_first.
  pose proof (invoke_overlaid (CallLimit (NInt 1) None) b st n _ Hn eq_refl) as Hinv.
  cbn [invoke returned] in Hinv.
  destruct (SelectBuilder.limit b (NInt 1) None st) as [limited st'].
  cbn [fst snd] in Hinv. injection Hinv as -> ->.
  unfold select_execute. rewrite Hsql. cbn [_client]. rewrite Hclient. reflexivity.
Qed.

End ResultSetFacts.


(** A column named [__proto__] leaves no key behind. *)
Example proto_column_rows :
  parseResultSet date_stub number_stub base64_stub
                 (mkResponse (Some [("__proto__", "LONG"); ("v", "LONG")])
                             (Some [[VString "1"; VString "2"]]) None)
  = Normal [ {[ "v" := VBigInt 2 ]} ].
Proof. vm_compute. reflexivity. Qed.



Lemma first_replaces_the_limit_witness :
  select_first date_stub number_stub base64_stub (fst paged_select) (snd paged_select) []
  = (Normal (Some ({[ "id" := VBigInt 7; "tag" := VString "a" ]} : gmap string JsValue)),
     ["SELECT *" ++ nl ++ "FROM energy_readings" ++ nl ++ "LIMIT 1"],
     (snd paged_select
      ++ [with_limit (Some (mkLimit (NInt 1) None))
                     (with_limit (Some (mkLimit (NInt 10) (Some (NInt 5)))) readings_star)])%list).
Proof.
  destruct (first_replaces_the_limit date_stub number_stub base64_stub
              (fst paged_select) (snd paged_select)
              (with_limit (Some (mkLimit (NInt 10) (Some (NInt 5)))) readings_star)
              [] ("SELECT *" ++ nl ++ "FROM energy_readings" ++ nl ++ "LIMIT 1")
              ids_response eq_refl eq_refl eq_refl) as [Hfirst _].
  rewrite Hfirst. vm_compute. reflexivity.
Defined.

(** ** Data definition statements *)

Lemma exec_each_stops (client : StatefulClient) (sqls : list string) :
  forall sent : list string,
    match AlterBuilder.exec_each client sqls sent with
    | (Normal _, sent') =>
        sent' = (sent ++ sqls)%list /\ accepted_in_turn client sent sqls
    | (Throw e, sent') =>
        exists (before : list string) (sql : string) (after : list string)
               (err : TransportError),
          sqls = (before ++ sql :: after)%list
          /\ accepted_in_turn client sent before
          /\ client (sent ++ before)%list sql = inr err
          /\ e = Transport err
          /\ sent' = (sent ++ before ++ [sql])%list
    end.
Proof.
  induction sqls as [|sql rest IH]; intros sent.
  - simpl. rewrite app_nil_r. split; [reflexivity|exact I].
  - cbn [AlterBuilder.exec_each]. unfold exec_.
    destruct (client sent sql) as [response|err] eqn:Hsql.
    + specialize (IH (sent ++ [sql])%list).
      destruct (AlterBuilder.exec_each client rest (sent ++ [sql])%list) as [[[]|e] sent'].
      * destruct IH as [-> Hall]. split; [now rewrite <- app_assoc|].
        split; [unfold accepts; now rewrite Hsql|exact Hall].
      * destruct IH as (before & bad & after & err & -> & Hall & Hbad & -> & ->).
        exists (sql :: before), bad, after, err.
        rewrite <- app_assoc in Hbad. repeat split; try assumption.
        -- unfold accepts. now rewrite Hsql.
        -- now rewrite <- app_assoc.
    + exists [], sql, rest, err. rewrite app_nil_r. repeat split; assumption.
Qed.

(** A client that answers a statement the same way whatever came
    before accepts statements in turn when it accepts each. *)
Lemma accepted_in_turn_pure (client : QuestDBClient) (sent sqls : list string) :
  accepted_in_turn (fun _ => client) sent sqls
  <-> Forall (fun sql => accepts client sql = true) sqls.
Proof.
  revert sent. induction sqls as [|sql rest IH]; intros sent; cbn [accepted_in_turn].
  - split; [constructor|trivial].
  - rewrite IH. split.
    + intros [H1 H2]. now constructor.
    + intros H. apply Forall_cons in H. exact H.
Qed.

(** X19: AlterBuilder.execute sends the queued statements one by one in
    the order of the calls that queued them and stops at the first one
    the transport rejects: it then rejects with the transport's error,
    the statements before the rejected one have been sent and accepted,
    and the ones after it are not sent.  It resolves only when every
    queued statement has been sent and accepted.  The transport may
    answer a statement differently each time it is sent: what counts
    is its answer at the moment of the request. *)
Theorem alter_execute_stops_at_first_rejection :
  forall (b : AlterBuilder) (sent : list string),
    match AlterBuilder.execute b sent with
    | (Normal _, sent') =>
        sent' = (sent ++ operations b)%list
        /\ accepted_in_turn (a_client b) sent (operations b)
    | (Throw e, sent') =>
        exists (before : list string) (sql : string) (after : list string)
               (err : TransportError),
          operations b = (before ++ sql :: after)%list
          /\ accepted_in_turn (a_client b) sent before
          /\ a_client b (sent ++ before)%list sql = inr err
          /\ e = Transport err
          /\ sent' = (sent ++ before ++ [sql])%list
    end.
Proof. intros b sent. apply exec_each_stops. Qed.

(** A server that takes a statement once and refuses it the second
    time: the queue holds the same statement twice. *)
Example alter_same_statement_twice :
  AlterBuilder.execute
    (AlterBuilder.resumeWal (AlterBuilder.resumeWal (AlterBuilder.new once_only readings)))
    []
  = (Throw (Transport (QuestDBError 400 "already done")),
     ["ALTER TABLE energy_readings RESUME WAL"; "ALTER TABLE energy_readings RESUME WAL"]).
Proof. reflexivity. Qed.

Lemma alter_call_pushes (b : AlterBuilder) (c : AlterCall) :
  a_client (alter_call b c) = a_client b
  /\ a_def (alter_call b c) = a_def b
  /\ exists rest : string,
       operations (alter_call b c)
       = (operations b
          ++ [("ALTER TABLE " ++ escapeIdentifier (name (a_def b)) ++ " " ++ rest)%string])%list.
Proof.
  destruct c; (split; [reflexivity|split; [reflexivity|]]);
    cbn [alter_call]; unfold AlterBuilder.addColumn, AlterBuilder.dropColumn,
      AlterBuilder.renameColumn, AlterBuilder.setTTL, AlterBuilder.setMaxUncommittedRows,
      AlterBuilder.setO3MaxLag, AlterBuilder.dropPartition, AlterBuilder.detachPartition,
      AlterBuilder.attachPartition, AlterBuilder.squashPartitions, AlterBuilder.resumeWal,
      AlterBuilder.push, AlterBuilder.tableName; cbn [operations];
    eexists; do 3 f_equal;
    match goal with
    | |- String " " ?x = _ => change (String " " x) with (" " ++ x); reflexivity
    end.
Qed.

(** X20: every call on an Alter builder queues exactly one statement
    behind the ones already queued, which stay as they were, and every
    queued statement is an ALTER TABLE on the builder's own table,
    named through escapeIdentifier. *)
Theorem alter_calls_queue_one_statement_each :
  forall (b : AlterBuilder) (calls : list AlterCall),
  exists added : list string,
    operations (alter_chain b calls) = (operations b ++ added)%list
    /\ length added = length calls
    /\ Forall (fun sql => exists rest : string,
                 sql = "ALTER TABLE " ++ escapeIdentifier (name (a_def b)) ++ " " ++ rest)
              added.
Proof.
  intros b calls. revert b. induction calls as [|c calls IH]; intros b.
  - exists []. rewrite app_nil_r. repeat split. constructor.
  - destruct (alter_call_pushes b c) as (_ & Hdef & rest & Hops).
    destruct (IH (alter_call b c)) as (added & Hadded & Hlen & Hall).
    exists (("ALTER TABLE " ++ escapeIdentifier (name (a_def b)) ++ " " ++ rest) :: added).
    cbn [alter_chain fold_left]. fold (alter_chain (alter_call b c) calls).
    rewrite Hadded, Hops, <- app_assoc. repeat split.
    + simpl. now rewrite Hlen.
    + constructor; [now exists rest|]. now rewrite <- Hdef.
Qed.

(** X21: CreateBuilder.execute sends the CREATE TABLE statement first
    and, only when the definition's ttl is a non-empty string, an
    ALTER TABLE ... SET PARAM ttl statement after it, with the ttl text
    placed between quotes as it is.  The two are sent like the queue of
    an Alter builder: a rejected CREATE sends nothing more, and a
    rejected TTL statement rejects execute after the table has been
    created. *)
Theorem create_execute_sends_create_then_ttl :
  forall (b : CreateBuilder) (sent : list string),
    let statements :=
      CreateBuilder.toSQL b
      :: match present (ttl (c_def b)) with
         | Some t => ["ALTER TABLE " ++ escapeIdentifier (name (c_def b))
                      ++ " SET PARAM ttl = '" ++ t ++ "'"]
         | None => []
         end in
    match CreateBuilder.execute b sent with
    | (Normal _, sent') =>
        sent' = (sent ++ statements)%list
        /\ Forall (fun sql => accepts (c_client b) sql = true) statements
    | (Throw e, sent') =>
        exists (before : list string) (sql : string) (after : list string)
               (err : TransportError),
          statements = (before ++ sql :: after)%list
          /\ Forall (fun sql => accepts (c_client b) sql = true) before
          /\ c_client b sql = inr err
          /\ e = Transport err
          /\ sent' = (sent ++ before ++ [sql])%list
    end.
Proof.
  intros b sent statements.
  assert (Hloop : CreateBuilder.execute b sent
                  = AlterBuilder.exec_each (fun _ => c_client b) statements sent).
  { unfold CreateBuilder.execute, statements. cbn [AlterBuilder.exec_each].
    destruct (exec_ (c_client b) (CreateBuilder.toSQL b) sent) as [[[]|e] sent'];
      [|reflexivity].
    destruct (present (ttl (c_def b))) as [t|]; [|reflexivity].
    cbn [AlterBuilder.exec_each].
    destruct (exec_ (c_client b) _ sent') as [[[]|e] sent'']; reflexivity. }
  rewrite Hloop.
  pose proof (exec_each_stops (fun _ => c_client b) statements sent) as H.
  destruct (AlterBuilder.exec_each (fun _ => c_client b) statements sent) as [[[]|e] sent'].
  - destruct H as [-> H]. split; [reflexivity|]. now apply accepted_in_turn_pure in H.
  - destruct H as (before & sql & after & err & H1 & H2 & H3 & H4 & H5).
    exists before, sql, after, err. repeat split; try assumption.
    now apply accepted_in_turn_pure in H2.
Qed.

(** A table is created, and the statement that sets its TTL is refused. *)
Example create_with_refused_ttl :
  CreateBuilder.execute (CreateBuilder.new picky_client readings_with_ttl) []
  = (Throw (Transport (QuestDBError 400 "bad ttl")),
     ["CREATE TABLE energy_readings (" ++ nl
      ++ "  ts TIMESTAMP," ++ nl
      ++ "  source SYMBOL," ++ nl
      ++ "  power_kw DOUBLE" ++ nl
      ++ ") timestamp(ts) PARTITION BY DAY WAL";
      "ALTER TABLE energy_readings SET PARAM ttl = '1 WEEK'"]).
Proof. vm_compute. reflexivity. Qed.

(** ** Column types in data definition statements *)

Lemma symbol_text (m : ColumnMeta) :
  exists rest : string,
    mapQDBType (mkQColumn symbol m) = "SYMBOL" ++ rest
    /\ (rest = "" \/ exists more : string, rest = " " ++ more).
Proof.
  destruct m as [d capacity cache index indexCapacity bits elem].
  unfold mapQDBType. cbn [qdbType meta symbolCapacity symbolCache symbolIndex
                          symbolIndexCapacity].
  destruct capacity as [n|], cache as [[]|], index as [[]|], indexCapacity as [k|];
    eexists; (split; [cbv [append]; reflexivity|]); eauto.
Qed.

(** X22: the SQL type text mapQDBType gives a column tells its column
    type, whatever the column's options, with one exception: a
    timestamp_ns column is written TIMESTAMP, like a timestamp column. *)
Theorem mapQDBType_tells_the_type :
  forall c1 c2 : QColumn,
    mapQDBType c1 = mapQDBType c2 ->
    qdbType c1 = qdbType c2
    \/ same_ddl_family (qdbType c1) (qdbType c2) = true.
Proof.
  intros [t1 m1] [t2 m2] H. cbn [qdbType].
  destruct (symbol_text m1) as (r1 & Hs1 & Hr1), (symbol_text m2) as (r2 & Hs2 & Hr2).
  destruct t1, t2; try (left; reflexivity); try (right; reflexivity); exfalso;
    try (rewrite Hs1 in H; destruct Hr1 as [->|[more1 ->]]);
    try (rewrite Hs2 in H; destruct Hr2 as [->|[more2 ->]]);
    unfold mapQDBType in H; cbn [qdbType meta] in H;
    repeat match type of H with
           | context [arrayType ?m] => destruct (arrayType m) as [[]|]
           end;
    cbv [from_option id] in H;
    repeat match type of H with
           | context [toUpperCase ?s] =>
               let v := eval vm_compute in (toUpperCase s) in
               change (toUpperCase s) with v in H
           end;
    cbv [append] in H; discriminate H.
Qed.

Lemma mapQDBType_tells_the_type_witness :
  mapQDBType (mkQColumn timestamp_ns plain) = mapQDBType (mkQColumn timestamp plain)
  /\ (timestamp_ns = timestamp \/ same_ddl_family timestamp_ns timestamp = true).
Proof.
  split; [reflexivity|].
  exact (mapQDBType_tells_the_type (mkQColumn timestamp_ns plain)
                                   (mkQColumn timestamp plain) eq_refl).
Defined.

(** ** Quotes without escaping *)

Lemma read_body_shorter (q : ascii) :
  forall (n : nat) (s r : string),
    (String.length s <= n)%nat -> read_body q s = Some r ->
    (String.length r < String.length s)%nat.
Proof.
  induction n as [|n IH]; intros s r Hn H.
  - destruct s; [discriminate H|simpl in Hn; lia].
  - destruct s as [|c s]; [discriminate H|]. cbn [read_body] in H.
    destruct (Ascii.eqb c q).
    + destruct s as [|c' s]; [injection H; intros <-; simpl; lia|].
      destruct (Ascii.eqb c' q); [|discriminate H].
      destruct (read_body q s) as [r'|] eqn:Hr; [|discriminate H].
      injection H; intros <-. simpl in Hn. apply IH in Hr; [simpl; lia|lia].
    + destruct (read_body q s) as [r'|] eqn:Hr; [|discriminate H].
      injection H; intros <-. simpl in Hn. apply IH in Hr; [simpl; lia|lia].
Qed.

Lemma read_body_plain (q : ascii) (p : string) :
  read_body q (p ++ String q "") = Some p
  <-> all_chars (fun c => negb (Ascii.eqb c q)) p = true.
Proof.
  induction p as [|c p IH].
  - change (read_body q (String q "") = Some "" <-> true = true).
    cbn [read_body]. rewrite Ascii.eqb_refl. tauto.
  - change (String c p ++ String q "") with (String c (p ++ String q "")).
    cbn [read_body all_chars]. destruct (Ascii.eqb c q) eqn:Hc; cbn [negb andb].
    + split; [|discriminate]. intros H. exfalso.
      destruct p as [|c' p].
      * change (String q "") with (String q EmptyString) in H.
        change ("" ++ String q "") with (String q "") in H. cbn iota in H.
        rewrite Ascii.eqb_refl in H. discriminate H.
      * change (String c' p ++ String q "") with (String c' (p ++ String q "")) in H.
        cbn iota in H. destruct (Ascii.eqb c' q); [|discriminate H].
        destruct (read_body q (p ++ String q "")) as [r|] eqn:Hr; [|discriminate H].
        injection H; intros Hr' _. subst r.
        apply (read_body_shorter q _ _ _ (le_n _)) in Hr.
        rewrite string_length_app in Hr. simpl in Hr. lia.
    + rewrite <- IH. destruct (read_body q (p ++ String q "")) as [r|]; simpl.
      * split; intros H; [now injection H; intros ->|now injection H; intros ->].
      * split; discriminate.
Qed.

(** X23: deletePartition puts the partition name between single quotes
    without escapeString: the statement it sends carries a literal that
    reads back as the given name exactly when the name has no single
    quote in it. *)
Theorem deletePartition_quotes_without_escaping :
  forall (t : Table) (partition : string) (sent : list string),
    let literal := "'" ++ partition ++ "'" in
    Table.deletePartition t (inl partition) sent
    = exec_ (t_client t)
            ("ALTER TABLE " ++ escapeIdentifier (name (t_def t))
             ++ " DROP PARTITION LIST " ++ literal)
            sent
    /\ (read_delimited squote literal = Some partition <-> no_quote partition = true).
Proof.
  intros t partition sent literal. split; [reflexivity|].
  unfold literal, no_quote.
  change ("'" ++ partition ++ "'") with (String squote (partition ++ String squote "")).
  cbn [read_delimited]. rewrite Ascii.eqb_refl. apply read_body_plain.
Qed.

(** A partition name that closes its own quote. *)
Example deletePartition_breaks_out :
  snd (Table.deletePartition (mkTable readings idle_client)
                             (inl "2026-01-15' WHERE 1 = 1 --") [])
  = ["ALTER TABLE energy_readings DROP PARTITION LIST '2026-01-15' WHERE 1 = 1 --'"].
Proof. reflexivity. Qed.

Lemma string_app_assoc (s1 s2 s3 : string) : (s1 ++ s2) ++ s3 = s1 ++ s2 ++ s3.
Proof.
  induction s1 as [|a s1 IH]; [reflexivity|].
  change (String a ((s1 ++ s2) ++ s3) = String a (s1 ++ s2 ++ s3)). now rewrite IH.
Qed.

Lemma string_app_nil_r (s : string) : s ++ "" = s.
Proof.
  induction s as [|a s IH]; [reflexivity|].
  change (String a (s ++ "") = String a s). now rewrite IH.
Qed.

(** X24: tableExists never rejects.  It sends one statement, which
    carries the table name as a string literal that reads back as the
    name, and resolves true when the transport accepts the statement
    and false when it rejects it, whatever the error: a table that is
    not there and a server that cannot be reached give the same
    answer. *)
Theorem tableExists_is_false_on_any_rejection :
  forall (client : QuestDBClient) (name : string) (sent : list string),
    let literal := "'" ++ escapeString name ++ "'" in
    let sql := "SELECT * FROM table_columns(" ++ literal ++ ") LIMIT 1" in
    tableExists client name sent = (accepts client sql, (sent ++ [sql])%list)
    /\ read_delimited squote literal = Some name.
Proof.
  intros client name sent literal sql. split.
  - unfold tableExists, exec_, accepts.
    replace ("SELECT * FROM table_columns('" ++ escapeString name ++ "') LIMIT 1") with sql.
    + destruct (client sql); reflexivity.
    + unfold sql, literal.
      change ("SELECT * FROM table_columns('" ++ escapeString name ++ "') LIMIT 1")
        with ("SELECT * FROM table_columns(" ++ "'" ++ escapeString name ++ "'" ++ ") LIMIT 1").
      rewrite !string_app_assoc. reflexivity.
  - apply (read_delimited_doubled squote name).
Qed.

(** ** Aggregates *)

(** X25: an aggregate built by fn carries its alias into its own text,
    and a column entry adds its alias behind that text: an aliased
    aggregate that is added under an alias is written with two AS
    clauses.  Without a truthy column the argument list is empty. *)
Theorem aggregate_keeps_its_alias :
  forall (name : string) (col alias entry : option string),
    let text := name ++ "("
                ++ match present col with
                   | Some c => escapeIdentifier c
                   | None => ""
                   end
                ++ ")" ++ as_clause alias in
    serializeExpr (fn.agg name col alias) = Normal text
    /\ serializeColumn (mkColumn (fn.agg name col alias) entry)
       = Normal (text ++ as_clause entry).
Proof.
  intros name col alias entry text.
  assert (Hexpr : serializeExpr (fn.agg name col alias) = Normal text).
  { unfold text, fn.agg, as_clause.
    destruct (present col) as [c|]; destruct (present alias) as [a|] eqn:Ha; cbn;
      rewrite Ha, ?string_app_assoc, ?string_app_nil_r; reflexivity. }
  split; [exact Hexpr|].
  cbn [serializeColumn]. rewrite Hexpr, bind_Normal. unfold as_clause.
  destruct (present entry) as [e|]; [reflexivity|].
  now rewrite string_app_nil_r.
Qed.

Example aliased_aggregate_added_under_an_alias :
  serializeColumn (mkColumn (fn.avg "power_kw" (Some "avg_power")) (Some "p"))
  = Normal "avg(power_kw) AS avg_power AS p".
Proof. reflexivity. Qed.
